(** * Layer-isolated layout export and logger configuration

    A shallow embedding of the two scripts of the repository:

    - [qgis/qgis_layout_export.py]: the export script.  The host
      application (project, layer tree, layout exporter), the file system
      and the console are modelled as an explicit world state that the
      script threads through a small state-and-exception monad.  Every call
      into a collaborator is recorded in a trace.
    - [python/notebooks/helpers.py]: [configure_logger], over a model of the
      logger's handler table. *)

From Stdlib Require Import Ascii.
From stdpp Require Import base option list strings gmap.

(** ** Layers and the project *)

(** [QgsMapLayer.type()]: the script only compares against [RasterLayer]. *)
Inductive LayerType :=
  | VectorLayer | RasterLayer | PluginLayer | MeshLayer
  | VectorTileLayer | AnnotationLayer | PointCloudLayer | GroupLayer.

Global Instance LayerType_eq_dec : EqDecision LayerType.
Proof. solve_decision. Defined.

(** A map layer as the script sees it: [id()], [name()], [type()]. *)
Record QgsMapLayer := {
  layer_id : string;
  layer_name : string;
  layer_type : LayerType
}.

Global Instance QgsMapLayer_eq_dec : EqDecision QgsMapLayer.
Proof. solve_decision. Defined.

(** A print layout handle, known by its name. *)
Record QgsLayout := { layout_name : string }.

Global Instance QgsLayout_eq_dec : EqDecision QgsLayout.
Proof. solve_decision. Defined.

(** The loaded project: [mapLayers()] is a dictionary from layer id to
    layer, kept here in iteration order; [layouts] is what the layout
    manager holds. *)
Record QgsProject := {
  mapLayers : list (string * QgsMapLayer);
  layouts : list QgsLayout
}.

(** [dict.values()] *)
Definition values (d : list (string * QgsMapLayer)) : list QgsMapLayer :=
  d.*2.

(** The dictionary is keyed by layer id: keys are distinct and each layer is
    stored under its own id. *)
Definition wf_project (p : QgsProject) : Prop :=
  NoDup (mapLayers p).*1 ∧
  Forall (λ kv, layer_id kv.2 = kv.1) (mapLayers p).

(** [layout_manager.layoutByName(name)]: the first layout of that name, or a
    null handle. *)
Definition layoutByName (p : QgsProject) (n : string) : option QgsLayout :=
  List.find (λ l, bool_decide (layout_name l = n)) (layouts p).

Definition is_raster (l : QgsMapLayer) : bool :=
  bool_decide (layer_type l = RasterLayer).

(** Lines 18-22 and 25-29 of the script: the two list comprehensions. *)
Definition raster_layers (p : QgsProject) : list QgsMapLayer :=
  List.filter is_raster (values (mapLayers p)).

Definition vector_layers (p : QgsProject) : list QgsMapLayer :=
  List.filter (λ l, negb (is_raster l)) (values (mapLayers p)).

(** ** Paths *)

Definition sep : ascii := "/"%char.

Definition startswith_sep (s : string) : bool :=
  match s with
  | String c _ => bool_decide (c = sep)
  | EmptyString => false
  end.

Fixpoint endswith_sep (s : string) : bool :=
  match s with
  | EmptyString => false
  | String c EmptyString => bool_decide (c = sep)
  | String _ s' => endswith_sep s'
  end.

(** [os.path.join(a, b)] with two arguments (POSIX flavour): a second
    component that starts with the separator replaces the first; otherwise
    the components are glued with exactly one separator. *)
Definition path_join (a b : string) : string :=
  if startswith_sep b then b
  else if bool_decide (a = "") || endswith_sep a then a +:+ b
  else a +:+ "/" +:+ b.

(** The directory prefixes of a path: for every separator that follows a
    non-separator character, the text before it.  [pre] is the text already
    read. *)
Fixpoint dir_prefixes (pre s : string) : list string :=
  match s with
  | EmptyString => []
  | String c s' =>
      (if bool_decide (c = sep) && negb (bool_decide (pre = ""))
          && negb (endswith_sep pre)
       then [pre] else [])
      ++ dir_prefixes (pre +:+ String c EmptyString) s'
  end.

Definition ancestors (p : string) : list string := dir_prefixes "" p.

(** ** The world the script acts on *)

(** What an exported image shows: the layout it was rendered from and the
    layers whose layer-tree node was checked at the time of the export, in
    project order. *)
Record Image := {
  img_layout : option QgsLayout;
  img_layers : list QgsMapLayer
}.

Inductive FsNode :=
  | Dir
  | File (img : Image).

(** Calls into the collaborators, in program order. *)
Inductive Event :=
  | EMakedirs (path : string) (exist_ok : bool)
  | ESetVisible (lid : string) (checked : bool)
  | EReload
  | EExport (path : string)
  | EPrint (line : string).

Global Instance Event_eq_dec : EqDecision Event.
Proof. solve_decision. Defined.

Record World := {
  tree : gmap string bool;      (* layer-tree nodes: id -> item visibility *)
  files : gmap string FsNode;   (* the file system, keyed by path *)
  trace : list Event            (* collaborator calls so far *)
}.

Inductive Exn :=
  | AttributeError      (* method call on the None returned by findLayer *)
  | FileExistsError
  | NotADirectoryError.

(** Outcome of a computation: a value, or a raised exception; the world
    reached is kept in both cases. *)
Inductive Res (A : Type) :=
  | Ok (a : A) (w : World)
  | Raise (e : Exn) (w : World).
Arguments Ok {A} a w.
Arguments Raise {A} e w.

Definition M (A : Type) : Type := World → Res A.

Definition ret {A} (a : A) : M A := λ w, Ok a w.

Definition bind {A B} (m : M A) (f : A → M B) : M B :=
  λ w, match m w with
       | Ok a w' => f a w'
       | Raise e w' => Raise e w'
       end.

Notation "m >> k" := (bind m (λ _, k))
  (at level 62, right associativity).

(** A Python [for] loop over a list. *)
Fixpoint for_each {A} (body : A → M unit) (l : list A) : M unit :=
  match l with
  | [] => ret tt
  | x :: l' => body x >> for_each body l'
  end.

Definition emit (e : Event) : M unit :=
  λ w, Ok tt {| tree := tree w; files := files w; trace := trace w ++ [e] |}.

(** [root.findLayer(id).setItemVisibilityChecked(b)]: [findLayer] returns
    the node of the layer, or [None] when the tree has none, and the method
    call on [None] raises. *)
Definition setItemVisibilityChecked (lid : string) (b : bool) : M unit :=
  λ w, match tree w !! lid with
       | Some _ =>
           Ok tt {| tree := <[lid := b]> (tree w); files := files w;
                    trace := trace w ++ [ESetVisible lid b] |}
       | None => Raise AttributeError w
       end.

(** [project.reloadAllLayers()]: re-reads the layers' data sources; the
    layer tree is left as it is. *)
Definition reloadAllLayers : M unit := emit EReload.

(** One step of directory creation: an existing directory is accepted when
    [ok] is set, a regular file in the way never is. *)
Definition mkdir_step (ok : bool) (q : string) (fs : gmap string FsNode)
  : Exn + gmap string FsNode :=
  match fs !! q with
  | None => inr (<[q := Dir]> fs)
  | Some Dir => if ok then inr fs else inl FileExistsError
  | Some (File _) => inl (if ok then NotADirectoryError else FileExistsError)
  end.

Fixpoint mkdir_parents (qs : list string) (fs : gmap string FsNode)
  : Exn + gmap string FsNode :=
  match qs with
  | [] => inr fs
  | q :: qs' =>
      match mkdir_step true q fs with
      | inr fs' => mkdir_parents qs' fs'
      | inl e => inl e
      end
  end.

(** [os.makedirs(path, exist_ok=...)]: a leaf that is already there is
    settled at once (a directory is accepted only with [exist_ok], a regular
    file never); otherwise the missing intermediate directories are created
    first, then the leaf.  Entries are kept under the path as written, which
    is the disk's behaviour for a path in normal form ([plain_path]);
    permissions are not modelled. *)
Definition makedirs_fs (path : string) (exist_ok : bool)
  (fs : gmap string FsNode) : Exn + gmap string FsNode :=
  match fs !! path with
  | Some Dir => if exist_ok then inr fs else inl FileExistsError
  | Some (File _) => inl FileExistsError
  | None =>
      match mkdir_parents (ancestors path) fs with
      | inr fs' => inr (<[path := Dir]> fs')
      | inl e => inl e
      end
  end.

Definition makedirs (path : string) (exist_ok : bool) : M unit :=
  λ w, let w' := {| tree := tree w; files := files w;
                    trace := trace w ++ [EMakedirs path exist_ok] |} in
       match makedirs_fs path exist_ok (files w) with
       | inr fs' => Ok tt {| tree := tree w'; files := fs'; trace := trace w' |}
       | inl e => Raise e w'
       end.

Definition checked (t : gmap string bool) (l : QgsMapLayer) : bool :=
  bool_decide (t !! layer_id l = Some true).

(** What the layout shows when rendered now. *)
Definition render (p : QgsProject) (layout : option QgsLayout)
  (t : gmap string bool) : Image :=
  {| img_layout := layout;
     img_layers := List.filter (checked t) (values (mapLayers p)) |}.

(** [QgsLayoutExporter(layout).exportToImage(path, settings)]: the rendered
    image is stored at [path], replacing what was there.  This is the
    exporter's contract when the export goes through (the layout exists, the
    directory of [path] is there); the exporter reports a failure by its
    result, which the script drops, so the call and what follows it are the
    same either way, and only what is said about the files needs the export
    to have gone through. *)
Definition exportToImage (p : QgsProject) (layout : option QgsLayout)
  (path : string) : M unit :=
  λ w, Ok tt {| tree := tree w;
                files := <[path := File (render p layout (tree w))]> (files w);
                trace := trace w ++ [EExport path] |}.

Definition print (line : string) : M unit := emit (EPrint line).

(** ** The export script *)

(** Line 53: [os.path.join(output_folder, f"{raster_layer.name()}.png")] *)
Definition out_path (output_folder : string) (r : QgsMapLayer) : string :=
  path_join output_folder (layer_name r +:+ ".png").

(** Lines 38-49: hide every raster layer, show the current one, show every
    other layer, then reload. *)
Definition show_only (rs vs : list QgsMapLayer) (r : QgsMapLayer) : M unit :=
  for_each (λ l, setItemVisibilityChecked (layer_id l) false) rs >>
  setItemVisibilityChecked (layer_id r) true >>
  for_each (λ v, setItemVisibilityChecked (layer_id v) true) vs >>
  reloadAllLayers.

(** Lines 52-56: export and report. *)
Definition export_step (p : QgsProject) (layout : option QgsLayout)
  (output_folder : string) (r : QgsMapLayer) : M unit :=
  exportToImage p layout (out_path output_folder r) >>
  print ("Saved: " +:+ out_path output_folder r).

(** The body of the loop of line 36. *)
Definition iteration (p : QgsProject) (layout : option QgsLayout)
  (output_folder : string) (rs vs : list QgsMapLayer) (r : QgsMapLayer)
  : M unit :=
  show_only rs vs r >>
  export_step p layout output_folder r.

Definition summary_line : string := "All styled images exported!".

(** The script from line 11 on, for a loaded project. *)
Definition export_layout (p : QgsProject) (layout_nm output_folder : string)
  : M unit :=
  let layout := layoutByName p layout_nm in
  let rs := raster_layers p in
  let vs := vector_layers p in
  makedirs output_folder true >>
  for_each (iteration p layout output_folder rs vs) rs >>
  print summary_line.

(** The script with the names it hard-codes. *)
Definition main (p : QgsProject) : M unit :=
  export_layout p "Layout_Name" "desired_output_directory".

(** A fresh process: the project as loaded, the disk as found, nothing
    called yet. *)
Definition initial (t : gmap string bool) (fs : gmap string FsNode) : World :=
  {| tree := t; files := fs; trace := [] |}.

(** ** The logger *)

(** Where a handler writes. *)
Inductive Sink :=
  | Stdout
  | Stderr
  | FileSink (path : string).

Global Instance Sink_eq_dec : EqDecision Sink.
Proof. solve_decision. Defined.

(** A handler as [logger.add] is given it by [configure_logger]. *)
Record Handler := {
  sink : Sink;
  colorize : option bool;
  format : string
}.

Global Instance Handler_eq_dec : EqDecision Handler.
Proof. solve_decision. Defined.

(** The logger's core: the table of handlers by handler id, and the counter
    that numbers the next handler added. *)
Record Logger := {
  handlers : gmap nat Handler;
  handlers_count : nat
}.

(** [logger.remove()] without an id: every handler goes; the counter
    stays. *)
Definition logger_remove (lg : Logger) : Logger :=
  {| handlers := ∅; handlers_count := handlers_count lg |}.

(** [logger.add(...)]: the handler is stored under the next id, which is
    returned. *)
Definition logger_add (h : Handler) (lg : Logger) : nat * Logger :=
  (handlers_count lg,
   {| handlers := <[handlers_count lg := h]> (handlers lg);
      handlers_count := S (handlers_count lg) |}).

Definition console_format : string :=
  "<green>{time:HH:mm:ss}</green> | " +:+
  "<level>{level}</level> | " +:+
  "<level>{message}</level>".

Definition console_handler : Handler :=
  {| sink := Stdout; colorize := Some true; format := console_format |}.

(** [configure_logger()]; the id [logger.add] returns is dropped. *)
Definition configure_logger (lg : Logger) : Logger :=
  (logger_add console_handler (logger_remove lg)).2.

(** The sink configuration: the handlers installed, without their ids. *)
Definition sinks (lg : Logger) : list Handler :=
  (map_to_list (handlers lg)).*2.

(** The logger as the library sets it up at import: one handler, id 0, on
    standard error. *)
Definition default_logger : Logger :=
  {| handlers := {[ 0 := {| sink := Stderr; colorize := None;
                            format := "{time} | {level} | {message}" |} ]};
     handlers_count := 1 |}.

(** ** Closed forms of what the script does *)

(** The effect of a hide-all or show-all loop on the layer tree. *)
Definition set_flags (b : bool) (ls : list QgsMapLayer)
  (t : gmap string bool) : gmap string bool :=
  foldl (λ t' l, <[layer_id l := b]> t') t ls.

(** The layer tree after lines 38-46 of one iteration. *)
Definition show_only_tree (rs vs : list QgsMapLayer) (r : QgsMapLayer)
  (t : gmap string bool) : gmap string bool :=
  set_flags true vs (<[layer_id r := true]> (set_flags false rs t)).

(** The visibility calls of one iteration, in program order. *)
Definition toggles (rs vs : list QgsMapLayer) (r : QgsMapLayer) : list Event :=
  ((λ l, ESetVisible (layer_id l) false) <$> rs)
  ++ [ESetVisible (layer_id r) true]
  ++ ((λ v, ESetVisible (layer_id v) true) <$> vs).

(** All calls of one iteration. *)
Definition iteration_events (output_folder : string)
  (rs vs : list QgsMapLayer) (r : QgsMapLayer) : list Event :=
  toggles rs vs r
  ++ [EReload; EExport (out_path output_folder r);
      EPrint ("Saved: " +:+ out_path output_folder r)].

(** Layer tree and file system after the loop has run over [todo]. *)
Fixpoint loop_state (p : QgsProject) (layout : option QgsLayout)
  (output_folder : string) (rs vs todo : list QgsMapLayer)
  (t : gmap string bool) (fs : gmap string FsNode)
  : gmap string bool * gmap string FsNode :=
  match todo with
  | [] => (t, fs)
  | r :: todo' =>
      let t' := show_only_tree rs vs r t in
      loop_state p layout output_folder rs vs todo' t'
        (<[out_path output_folder r := File (render p layout t')]> fs)
  end.

(** ** Reading a trace *)

Definition apply_event (e : Event) (t : gmap string bool) : gmap string bool :=
  match e with
  | ESetVisible lid b => <[lid := b]> t
  | _ => t
  end.

(** The layer tree after the calls [es], starting from [t]. *)
Definition replay (es : list Event) (t : gmap string bool) : gmap string bool :=
  foldl (λ t' e, apply_event e t') t es.

Definition is_toggle (e : Event) : bool :=
  match e with ESetVisible _ _ => true | _ => false end.

(** The paths exported to, in order. *)
Definition exports (es : list Event) : list string :=
  omap (λ e, match e with EExport path => Some path | _ => None end) es.

(** The lines written to the console, in order. *)
Definition stdout (es : list Event) : list string :=
  omap (λ e, match e with EPrint line => Some line | _ => None end) es.

(** ** Preconditions *)

(** Every layer of [ls] has a node in the layer tree. *)
Definition has_nodes (ls : list QgsMapLayer) (t : gmap string bool) : Prop :=
  Forall (λ l, is_Some (t !! layer_id l)) ls.

Definition is_file (fs : gmap string FsNode) (q : string) : bool :=
  match fs !! q with
  | Some (File _) => true
  | _ => false
  end.

Definition is_dir (fs : gmap string FsNode) (q : string) : bool :=
  match fs !! q with
  | Some Dir => true
  | _ => false
  end.

(** The output directory can be created: it is there already, or no regular
    file sits at the path or at one of its directory prefixes. *)
Definition creatable (path : string) (fs : gmap string FsNode) : Prop :=
  is_dir fs path = true ∨
  Forall (λ q, is_file fs q = false) (ancestors path ++ [path]).

(** The path the specification gives for the image of layer [r]. *)
Definition spec_out_path (output_folder : string) (r : QgsMapLayer) : string :=
  output_folder +:+ "/" +:+ layer_name r +:+ ".png".

(** Whether a console line is a confirmation line. *)
Definition is_saved_line (s : string) : bool :=
  String.prefix "Saved:" s.

(** The visible set is exactly the raster layer [r] and the layers that are
    not raster layers: a layer of the project is checked in [t] if and only
    if it is one of those. *)
Definition shows_only (p : QgsProject) (r : QgsMapLayer)
  (t : gmap string bool) : Prop :=
  ∀ l, l ∈ values (mapLayers p) →
       t !! layer_id l = Some true ↔ l = r ∨ layer_type l ≠ RasterLayer.

(** ** Sample data *)

Definition mk_layer (i n : string) (ty : LayerType) : string * QgsMapLayer :=
  (i, {| layer_id := i; layer_name := n; layer_type := ty |}).

Definition dem : QgsMapLayer := (mk_layer "r1" "dem" RasterLayer).2.
Definition ortho : QgsMapLayer := (mk_layer "r2" "ortho" RasterLayer).2.
Definition roads : QgsMapLayer := (mk_layer "v1" "roads" VectorLayer).2.

Definition demo_project : QgsProject :=
  {| mapLayers := [mk_layer "r1" "dem" RasterLayer;
                   mk_layer "v1" "roads" VectorLayer;
                   mk_layer "r2" "ortho" RasterLayer];
     layouts := [{| layout_name := "Layout_Name" |}] |}.

(** As loaded: both rasters shown, the vector layer hidden. *)
Definition demo_tree : gmap string bool :=
  {[ "r1" := true; "v1" := false; "r2" := true ]}.

(** Another load state of the same project. *)
Definition demo_tree' : gmap string bool :=
  {[ "r1" := false; "v1" := true; "r2" := false ]}.


Definition dem2 : QgsMapLayer := (mk_layer "r2" "dem" RasterLayer).2.

(** A raster layer whose name starts with the path separator. *)
Definition rooted_project : QgsProject :=
  {| mapLayers := [mk_layer "r1" "/tmp/dem" RasterLayer];
     layouts := [{| layout_name := "Layout_Name" |}] |}.

Definition rooted_tree : gmap string bool := {[ "r1" := true ]}.

(** The output directory left by an earlier run. *)
Definition disk_after_run : gmap string FsNode :=
  {[ "desired_output_directory" := Dir ]}.

(** Only vector layers. *)
Definition vector_project : QgsProject :=
  {| mapLayers := [mk_layer "v1" "roads" VectorLayer];
     layouts := [{| layout_name := "Layout_Name" |}] |}.

(** ** Closed forms for the files written and for counting calls *)

(** What the layout shows once lines 38-46 have run for [r]; the tree they
    start from plays no part (see [render_show_only_tree_any]). *)
Definition image_of (p : QgsProject) (layout : option QgsLayout)
  (r : QgsMapLayer) : Image :=
  render p layout (show_only_tree (raster_layers p) (vector_layers p) r ∅).

(** The files the loop writes over [todo], in order. *)
Definition export_writes (p : QgsProject) (layout : option QgsLayout)
  (output_folder : string) (todo : list QgsMapLayer)
  : list (string * FsNode) :=
  (λ r, (out_path output_folder r, File (image_of p layout r))) <$> todo.

(** Writing files one after the other, a later write replacing an earlier
    one at the same path. *)
Definition apply_writes (ws : list (string * FsNode))
  (fs : gmap string FsNode) : gmap string FsNode :=
  foldl (λ fs' kv, <[kv.1 := kv.2]> fs') fs ws.

Definition is_reload (e : Event) : bool :=
  match e with EReload => true | _ => false end.

(** How many calls of a kind a trace holds. *)
Definition count_calls (kind : Event → bool) (es : list Event) : nat :=
  length (List.filter kind es).

(** The confirmation line for an exported path (line 56). *)
Definition saved_line (path : string) : string := "Saved: " +:+ path.

(** ** More sample data *)

(** The vector layer is in the project but not in the layer tree. *)
Definition tree_without_roads : gmap string bool :=
  {[ "r1" := true; "r2" := true ]}.

(** A regular file sits where the output directory should go. *)
Definition disk_with_file : gmap string FsNode :=
  {[ "desired_output_directory" :=
       File {| img_layout := None; img_layers := [] |} ]}.

(** A tree that also holds a node that belongs to no layer of the project
    (a layer group, say). *)
Definition demo_tree_with_group : gmap string bool :=
  {[ "r1" := true; "v1" := false; "r2" := true; "group1" := false ]}.

(** ** Folders and names the disk model is faithful for *)

(** The disk of the model keeps an entry under the path as it is written,
    and an export always leaves its image there.  The real disk does so when
    the layout exists, the folder is written in normal form and the layer
    names are plain file names; the theorems about the files left by a run
    carry these as hypotheses. *)


(** The components of a path: the texts between separators; [cur] is the
    component being read. *)
Fixpoint split_sep (cur s : string) : list string :=
  match s with
  | EmptyString => [cur]
  | String c s' =>
      if bool_decide (c = sep) then cur :: split_sep "" s'
      else split_sep (cur +:+ String c EmptyString) s'
  end.

Definition components (s : string) : list string := split_sep "" s.

Definition plain_component (c : string) : bool :=
  negb (bool_decide (c = "")) && negb (bool_decide (c = "."))
  && negb (bool_decide (c = "..")).

(** A path in normal form: not empty, no separator at the end, and no
    empty, [.] or [..] component (but for the empty first component of an
    absolute path). *)
Definition plain_path (s : string) : bool :=
  negb (bool_decide (s = "")) && negb (endswith_sep s)
  && forallb plain_component
       (match components s with
        | EmptyString :: cs => cs
        | cs => cs
        end).

(** ** Basic facts *)

Lemma world_eta (w : World) :
  w = {| tree := tree w; files := files w; trace := trace w |}.
Proof. by destruct w. Qed.

Lemma has_nodes_insert ls i b t :
  has_nodes ls t → has_nodes ls (<[i := b]> t).
Proof.
  unfold has_nodes. intros H. eapply Forall_impl; [exact H|].
  intros l Hl. simpl. rewrite lookup_insert_is_Some'. by right.
Qed.

Lemma has_nodes_set_flags b ls' ls t :
  has_nodes ls t → has_nodes ls (set_flags b ls' t).
Proof.
  revert t. induction ls' as [|l' ls' IH]; intros t Ht; [done|].
  simpl. apply IH. by apply has_nodes_insert.
Qed.

Lemma has_nodes_filter f ls t :
  has_nodes ls t → has_nodes (List.filter f ls) t.
Proof.
  unfold has_nodes. rewrite !Forall_forall. intros H l Hl.
  apply H. apply list_elem_of_In in Hl. apply list_elem_of_In.
  by apply List.filter_In in Hl as [? _].
Qed.

Lemma set_flags_lookup b ls t i :
  set_flags b ls t !! i =
    if decide (i ∈ layer_id <$> ls) then Some b else t !! i.
Proof.
  revert t. induction ls as [|l ls IH]; intros t; simpl.
  - destruct (decide (i ∈ [])) as [H|H]; [| done]. by apply elem_of_nil in H.
  - rewrite IH. destruct (decide (i ∈ layer_id <$> ls)) as [Hin|Hin].
    + rewrite decide_True; [done | by right].
    + destruct (decide (i = layer_id l)) as [->|Hne].
      * rewrite decide_True; [| by left]. by rewrite lookup_insert_eq.
      * rewrite decide_False.
        -- by rewrite lookup_insert_ne.
        -- intros [?|?]%elem_of_cons; done.
Qed.

(** ** The interpreter against the closed forms *)

Lemma for_each_set_ok b ls w :
  has_nodes ls (tree w) →
  for_each (λ l, setItemVisibilityChecked (layer_id l) b) ls w =
    Ok tt {| tree := set_flags b ls (tree w); files := files w;
             trace := trace w ++ ((λ l, ESetVisible (layer_id l) b) <$> ls) |}.
Proof.
  revert w. induction ls as [|l ls IH]; intros w Hn.
  - simpl. unfold ret. rewrite app_nil_r. f_equal. apply world_eta.
  - apply Forall_cons in Hn as [[v Hv] Hn].
    cbn [for_each]. unfold bind at 1.
    unfold setItemVisibilityChecked at 1. rewrite Hv.
    rewrite IH; cbn [tree files trace].
    + by rewrite <- app_assoc.
    + by apply has_nodes_insert.
Qed.

Lemma show_only_ok rs vs r w :
  has_nodes rs (tree w) → has_nodes vs (tree w) → r ∈ rs →
  show_only rs vs r w =
    Ok tt {| tree := show_only_tree rs vs r (tree w); files := files w;
             trace := trace w ++ toggles rs vs r ++ [EReload] |}.
Proof.
  intros Hrs Hvs Hr. unfold show_only.
  unfold bind at 1. rewrite for_each_set_ok by done.
  unfold bind at 1, setItemVisibilityChecked at 1. cbn [tree files trace].
  assert (is_Some (set_flags false rs (tree w) !! layer_id r)) as [v Hv].
  { apply has_nodes_set_flags with (b := false) (ls' := rs) in Hrs.
    unfold has_nodes in Hrs. rewrite Forall_forall in Hrs. by apply Hrs. }
  rewrite Hv. unfold bind at 1.
  rewrite for_each_set_ok; cbn [tree files trace].
  - unfold reloadAllLayers, emit, show_only_tree, toggles.
    cbn [tree files trace]. by rewrite <- !app_assoc.
  - by apply has_nodes_insert, has_nodes_set_flags.
Qed.

Lemma iteration_ok p layout out rs vs r w :
  has_nodes rs (tree w) → has_nodes vs (tree w) → r ∈ rs →
  iteration p layout out rs vs r w =
    Ok tt {| tree := show_only_tree rs vs r (tree w);
             files := <[out_path out r :=
                          File (render p layout
                                  (show_only_tree rs vs r (tree w)))]>
                        (files w);
             trace := trace w ++ iteration_events out rs vs r |}.
Proof.
  intros Hrs Hvs Hr. unfold iteration, bind.
  rewrite show_only_ok by done.
  unfold export_step, bind, exportToImage, print, emit, iteration_events.
  cbn [tree files trace]. by rewrite <- !app_assoc.
Qed.

Lemma has_nodes_show_only_tree ls rs vs r t :
  has_nodes ls t → has_nodes ls (show_only_tree rs vs r t).
Proof.
  intros H. unfold show_only_tree.
  by apply has_nodes_set_flags, has_nodes_insert, has_nodes_set_flags.
Qed.

Lemma loop_ok p layout out rs vs todo w :
  has_nodes rs (tree w) → has_nodes vs (tree w) → todo ⊆ rs →
  for_each (iteration p layout out rs vs) todo w =
    let st := loop_state p layout out rs vs todo (tree w) (files w) in
    Ok tt {| tree := st.1; files := st.2;
             trace := trace w ++ flat_map (iteration_events out rs vs) todo |}.
Proof.
  revert w. induction todo as [|r todo IH]; intros w Hrs Hvs Hsub.
  - simpl. unfold ret. rewrite app_nil_r. f_equal. apply world_eta.
  - cbn [for_each]. unfold bind at 1.
    rewrite iteration_ok; [| done | done | apply Hsub; by left].
    rewrite IH; cbn [tree files trace].
    + simpl. by rewrite <- app_assoc.
    + by apply has_nodes_show_only_tree.
    + by apply has_nodes_show_only_tree.
    + intros x Hx. apply Hsub. by right.
Qed.

Lemma makedirs_ok out fs1 w :
  makedirs_fs out true (files w) = inr fs1 →
  makedirs out true w =
    Ok tt {| tree := tree w; files := fs1;
             trace := trace w ++ [EMakedirs out true] |}.
Proof. intros H. unfold makedirs. by rewrite H. Qed.

(** The whole run in closed form, for a project whose layers all have a
    node and an output directory that can be created. *)
Lemma export_layout_ok p ln out t0 fs0 fs1 :
  has_nodes (values (mapLayers p)) t0 →
  makedirs_fs out true fs0 = inr fs1 →
  export_layout p ln out (initial t0 fs0) =
    let rs := raster_layers p in
    let vs := vector_layers p in
    let st := loop_state p (layoutByName p ln) out rs vs rs t0 fs1 in
    Ok tt {| tree := st.1; files := st.2;
             trace := [EMakedirs out true]
                      ++ flat_map (iteration_events out rs vs) rs
                      ++ [EPrint summary_line] |}.
Proof.
  intros Hn Hmk. unfold export_layout. unfold bind at 1.
  rewrite (makedirs_ok out fs1) by done. cbn [initial tree files trace].
  unfold bind at 1. rewrite loop_ok; cbn [tree files trace].
  - unfold print, emit. cbn [tree files trace]. by rewrite <- app_assoc.
  - by apply has_nodes_filter.
  - by apply has_nodes_filter.
  - done.
Qed.

(** ** Directory creation *)

Lemma mkdir_parents_ok qs fs :
  Forall (λ q, is_file fs q = false) qs →
  ∃ fs', mkdir_parents qs fs = inr fs' ∧
         ∀ q, fs' !! q = if decide (q ∈ qs) then Some Dir else fs !! q.
Proof.
  revert fs. induction qs as [|q0 qs IH]; intros fs Hq.
  - exists fs. split; [done|]. intros q.
    destruct (decide (q ∈ [])) as [H|H]; [by apply elem_of_nil in H | done].
  - apply Forall_cons in Hq as [Hq0 Hq]. cbn [mkdir_parents].
    assert (∃ fs1, mkdir_step true q0 fs = inr fs1 ∧
              ∀ q, fs1 !! q = if decide (q = q0) then Some Dir else fs !! q)
      as (fs1 & -> & Hfs1).
    { unfold mkdir_step, is_file in *.
      destruct (fs !! q0) as [[|img]|] eqn:E; [| done |].
      - exists fs. split; [done|]. intros q. by case_decide; subst.
      - eexists. split; [done|]. intros q.
        case_decide; subst; [by rewrite lookup_insert_eq |].
        by rewrite lookup_insert_ne. }
    destruct (IH fs1) as (fs' & -> & Hfs').
    { eapply Forall_impl; [exact Hq|]. intros q Hf. simpl in *.
      unfold is_file in *. rewrite Hfs1. by case_decide. }
    exists fs'. split; [done|]. intros q. rewrite Hfs', Hfs1.
    destruct (decide (q ∈ qs)) as [Hin|Hin].
    + rewrite decide_True; [done | by right].
    + destruct (decide (q = q0)) as [->|Hne].
      * rewrite decide_True; [done | by left].
      * rewrite decide_False; [done|]. by intros [?|?]%elem_of_cons.
Qed.

Lemma is_dir_Some fs q : is_dir fs q = true ↔ fs !! q = Some Dir.
Proof.
  unfold is_dir. destruct (fs !! q) as [[|?]|]; split; congruence.
Qed.

Lemma makedirs_fs_ok out fs :
  creatable out fs →
  ∃ fs1, makedirs_fs out true fs = inr fs1 ∧
         (is_dir fs out = true → fs1 = fs) ∧
         (is_dir fs out = false →
          ∀ q, fs1 !! q =
               if decide (q ∈ ancestors out ++ [out]) then Some Dir
               else fs !! q).
Proof.
  intros [Hd|Hc]; unfold makedirs_fs.
  - apply is_dir_Some in Hd as Hl. rewrite Hl. exists fs.
    split; [done|]. split; [done | congruence].
  - apply Forall_app in Hc as [Ha Hl]. rewrite Forall_singleton in Hl.
    unfold is_file in Hl.
    destruct (fs !! out) as [[|img]|] eqn:E; [| done |].
    + exists fs. split; [done|]. split; [done|].
      unfold is_dir. by rewrite E.
    + destruct (mkdir_parents_ok _ _ Ha) as (fs' & -> & Hfs').
      eexists. split; [done|]. split.
      { unfold is_dir. by rewrite E. }
      intros _ q. destruct (decide (q = out)) as [->|Hne].
      * rewrite lookup_insert_eq. rewrite decide_True; [done|].
        apply elem_of_app. right. by apply list_elem_of_singleton.
      * rewrite lookup_insert_ne by done. rewrite Hfs'.
        destruct (decide (q ∈ ancestors out)) as [Hin|Hin].
        -- rewrite decide_True; [done|]. apply elem_of_app. by left.
        -- rewrite decide_False; [done|].
           intros [?|?%list_elem_of_singleton]%elem_of_app; done.
Qed.

Lemma makedirs_fs_is_dir out fs fs1 :
  makedirs_fs out true fs = inr fs1 → is_dir fs1 out = true.
Proof.
  unfold makedirs_fs. intros H. apply is_dir_Some.
  destruct (fs !! out) as [[|img]|] eqn:E; [| done |].
  - by injection H as <-.
  - destruct (mkdir_parents (ancestors out) fs); [done|].
    injection H as <-. by rewrite lookup_insert_eq.
Qed.

(** ** Layers of a well-formed project *)

Lemma elem_of_List_filter {A} (f : A → bool) (l : list A) x :
  x ∈ List.filter f l ↔ x ∈ l ∧ f x = true.
Proof. rewrite !list_elem_of_In. apply List.filter_In. Qed.

Lemma elem_of_raster_layers p l :
  l ∈ raster_layers p ↔
  l ∈ values (mapLayers p) ∧ layer_type l = RasterLayer.
Proof.
  unfold raster_layers, is_raster. rewrite elem_of_List_filter.
  by rewrite bool_decide_eq_true.
Qed.

Lemma elem_of_vector_layers p l :
  l ∈ vector_layers p ↔
  l ∈ values (mapLayers p) ∧ layer_type l ≠ RasterLayer.
Proof.
  unfold vector_layers, is_raster. rewrite elem_of_List_filter.
  by rewrite negb_true_iff, bool_decide_eq_false.
Qed.

Lemma keyed_unique (d : list (string * QgsMapLayer)) k l1 l2 :
  NoDup d.*1 → (k, l1) ∈ d → (k, l2) ∈ d → l1 = l2.
Proof.
  induction d as [|[k0 l0] d IH]; intros Hnd H1 H2.
  - by apply elem_of_nil in H1.
  - apply NoDup_cons in Hnd as [Hk0 Hnd].
    apply elem_of_cons in H1 as [H1|H1], H2 as [H2|H2].
    + congruence.
    + injection H1 as -> ->. exfalso. apply Hk0.
      by apply (list_elem_of_fmap_2 fst) in H2.
    + injection H2 as -> ->. exfalso. apply Hk0.
      by apply (list_elem_of_fmap_2 fst) in H1.
    + by apply IH.
Qed.

(** Two layers of the project with the same id are the same layer. *)
Lemma layer_id_inj p l1 l2 :
  wf_project p →
  l1 ∈ values (mapLayers p) → l2 ∈ values (mapLayers p) →
  layer_id l1 = layer_id l2 → l1 = l2.
Proof.
  intros [Hnd Hkey] H1 H2 Hid. rewrite Forall_forall in Hkey.
  apply list_elem_of_fmap in H1 as ([k1 l1'] & -> & H1).
  apply list_elem_of_fmap in H2 as ([k2 l2'] & -> & H2).
  simpl in *. pose proof (Hkey _ H1) as E1. pose proof (Hkey _ H2) as E2.
  simpl in *. apply (keyed_unique (mapLayers p) k1); [done | done |].
  by replace k1 with k2 by congruence.
Qed.

(** The flag of every layer of the project at the end of lines 38-46: it is
    set exactly for the current raster layer and for the layers that are not
    raster layers, whatever the tree was before. *)
Lemma show_only_tree_lookup p r l t :
  wf_project p →
  r ∈ raster_layers p → l ∈ values (mapLayers p) →
  show_only_tree (raster_layers p) (vector_layers p) r t !! layer_id l =
    Some (bool_decide (l = r) || negb (is_raster l)).
Proof.
  intros Hwf Hr Hl. unfold show_only_tree.
  apply elem_of_raster_layers in Hr as Hr'. destruct Hr' as [Hrv Hrt].
  rewrite set_flags_lookup.
  destruct (decide (layer_type l = RasterLayer)) as [Hlt|Hlt].
  - assert (is_raster l = true) as ->
      by (by apply bool_decide_eq_true).
    rewrite orb_false_r.
    rewrite decide_False.
    + destruct (decide (l = r)) as [->|Hne].
      * rewrite lookup_insert_eq. by rewrite bool_decide_eq_true_2.
      * rewrite lookup_insert_ne.
        2:{ intros Hid. apply Hne. symmetry.
            by apply (layer_id_inj p). }
        rewrite set_flags_lookup, decide_True.
        -- by rewrite bool_decide_eq_false_2.
        -- apply list_elem_of_fmap_2. by apply elem_of_raster_layers.
    + intros (v & Hid & Hv)%list_elem_of_fmap.
      apply elem_of_vector_layers in Hv as [Hvv Hvt].
      apply Hvt. by rewrite <- (layer_id_inj p l v).
  - assert (is_raster l = false) as ->
      by (by apply bool_decide_eq_false).
    rewrite orb_true_r. rewrite decide_True; [done|].
    apply list_elem_of_fmap_2. by apply elem_of_vector_layers.
Qed.

(** ** Replaying a trace *)

Lemma replay_app es1 es2 t :
  replay (es1 ++ es2) t = replay es2 (replay es1 t).
Proof. unfold replay. apply foldl_app. Qed.

Lemma replay_set b ls t :
  replay ((λ l, ESetVisible (layer_id l) b) <$> ls) t = set_flags b ls t.
Proof.
  revert t. induction ls as [|l ls IH]; intros t; [done|].
  simpl. apply IH.
Qed.

Lemma replay_toggles rs vs r t :
  replay (toggles rs vs r) t = show_only_tree rs vs r t.
Proof.
  unfold toggles, show_only_tree.
  by rewrite !replay_app, !replay_set.
Qed.

Lemma replay_iteration_events out rs vs r t :
  replay (iteration_events out rs vs r) t = show_only_tree rs vs r t.
Proof.
  unfold iteration_events. by rewrite replay_app, replay_toggles.
Qed.

Lemma exports_app es1 es2 : exports (es1 ++ es2) = exports es1 ++ exports es2.
Proof. apply omap_app. Qed.

Lemma stdout_app es1 es2 : stdout (es1 ++ es2) = stdout es1 ++ stdout es2.
Proof. apply omap_app. Qed.

Lemma exports_set b (ls : list QgsMapLayer) :
  exports ((λ l, ESetVisible (layer_id l) b) <$> ls) = [].
Proof. by induction ls. Qed.

Lemma exports_toggles rs vs r : exports (toggles rs vs r) = [].
Proof.
  unfold toggles. by rewrite !exports_app, !exports_set.
Qed.

Lemma exports_iteration_events out rs vs r :
  exports (iteration_events out rs vs r) = [out_path out r].
Proof.
  unfold iteration_events. by rewrite exports_app, exports_toggles.
Qed.

Lemma exports_loop out rs vs todo :
  exports (flat_map (iteration_events out rs vs) todo) = out_path out <$> todo.
Proof.
  induction todo as [|r todo IH]; [done|].
  simpl. by rewrite exports_app, exports_iteration_events, IH.
Qed.

(** ** Splitting the loop *)

Lemma for_each_app {A} (body : A → M unit) l1 l2 w :
  for_each body (l1 ++ l2) w = (for_each body l1 >> for_each body l2) w.
Proof.
  revert w. induction l1 as [|x l1 IH]; intros w; [done|].
  simpl. unfold bind. destruct (body x w) as [[] w'|e w']; [|done].
  rewrite IH. done.
Qed.

(** A run that reaches the middle of the iteration for [x] continues with
    the rest of that iteration and the rest of the loop. *)
Lemma loop_split {A} (first last : M unit) (body : A → M unit)
    (m1 m2 : M unit) l1 x l2 w0 w1 :
  (∀ w, body x w = (m1 >> m2) w) →
  (first >> for_each body l1 >> m1) w0 = Ok tt w1 →
  (first >> for_each body (l1 ++ x :: l2) >> last) w0 =
    (m2 >> for_each body l2 >> last) w1.
Proof.
  intros Hbody. unfold bind.
  destruct (first w0) as [[] wa|e wa]; [|done].
  rewrite for_each_app. unfold bind.
  destruct (for_each body l1 wa) as [[] wb|e wb]; [|done].
  cbn [for_each]. unfold bind. rewrite Hbody. unfold bind.
  intros ->. by destruct (m2 w1) as [[] w'|e w'].
Qed.

Lemma loop_state_app p layout out rs vs todo1 todo2 t fs :
  loop_state p layout out rs vs (todo1 ++ todo2) t fs =
    let st := loop_state p layout out rs vs todo1 t fs in
    loop_state p layout out rs vs todo2 st.1 st.2.
Proof.
  revert t fs. induction todo1 as [|r todo1 IH]; intros t fs; [done|].
  simpl. apply IH.
Qed.

Lemma loop_state_has_nodes p layout out rs vs todo ls t fs :
  has_nodes ls t →
  has_nodes ls (loop_state p layout out rs vs todo t fs).1.
Proof.
  revert t fs. induction todo as [|r todo IH]; intros t fs H; [done|].
  simpl. by apply IH, has_nodes_show_only_tree.
Qed.

(** The world in which the export of [r] is called: the script has created
    the directory, gone through the iterations of the layers before [r], and
    done lines 38-49 for [r]. *)
Lemma before_export_ok p ln out t0 fs0 fs1 rs1 r rs2 :
  has_nodes (values (mapLayers p)) t0 →
  makedirs_fs out true fs0 = inr fs1 →
  raster_layers p = rs1 ++ r :: rs2 →
  let rs := raster_layers p in
  let vs := vector_layers p in
  let layout := layoutByName p ln in
  let st := loop_state p layout out rs vs rs1 t0 fs1 in
  (makedirs out true >>
   for_each (iteration p layout out rs vs) rs1 >>
   show_only rs vs r) (initial t0 fs0) =
    Ok tt {| tree := show_only_tree rs vs r st.1; files := st.2;
             trace := [EMakedirs out true]
                      ++ flat_map (iteration_events out rs vs) rs1
                      ++ toggles rs vs r ++ [EReload] |}.
Proof.
  intros Hn Hmk Hrs rs vs layout st.
  assert (has_nodes rs t0) as Hnr by by apply has_nodes_filter.
  assert (has_nodes vs t0) as Hnv by by apply has_nodes_filter.
  unfold bind at 1. rewrite (makedirs_ok out fs1) by done.
  cbn [initial tree files trace]. unfold bind at 1.
  rewrite loop_ok; cbn [tree files trace]; [| done | done |].
  - rewrite show_only_ok; cbn [tree files trace].
    + by rewrite <- !app_assoc.
    + by apply loop_state_has_nodes.
    + by apply loop_state_has_nodes.
    + subst rs. rewrite Hrs. apply elem_of_app. right. by left.
  - subst rs. rewrite Hrs. intros x Hx. apply elem_of_app. by left.
Qed.

(** The run is the prefix above followed by the export of [r] and the rest
    of the loop. *)
Lemma export_layout_split p ln out rs1 r rs2 w0 w1 :
  raster_layers p = rs1 ++ r :: rs2 →
  let rs := raster_layers p in
  let vs := vector_layers p in
  let layout := layoutByName p ln in
  (makedirs out true >>
   for_each (iteration p layout out rs vs) rs1 >>
   show_only rs vs r) w0 = Ok tt w1 →
  export_layout p ln out w0 =
    (export_step p layout out r >>
     for_each (iteration p layout out rs vs) rs2 >>
     print summary_line) w1.
Proof.
  intros Hrs rs vs layout Hpre. unfold export_layout. cbv zeta.
  fold rs vs layout.
  set (body := iteration p layout out rs vs) in *.
  assert (∀ w, body r w =
            (show_only rs vs r >> export_step p layout out r) w) as Hbody
    by done.
  clearbody body. subst rs. rewrite Hrs.
  by apply (loop_split _ _ _ (show_only (raster_layers p) vs r)).
Qed.

Lemma loop_state_last p layout out rs vs todo todo' r t fs :
  todo = todo' ++ [r] →
  (loop_state p layout out rs vs todo t fs).1 =
    show_only_tree rs vs r (loop_state p layout out rs vs todo' t fs).1.
Proof. intros ->. by rewrite loop_state_app. Qed.

Lemma shows_only_show_only_tree p r t :
  wf_project p → r ∈ raster_layers p →
  shows_only p r (show_only_tree (raster_layers p) (vector_layers p) r t).
Proof.
  intros Hwf Hr l Hl. rewrite (show_only_tree_lookup p) by done.
  unfold is_raster. split.
  - intros [= H]. apply orb_true_iff in H as [H|H].
    + left. by apply bool_decide_eq_true in H.
    + right. by apply negb_true_iff, bool_decide_eq_false in H.
  - intros [->|H]; f_equal.
    + by rewrite bool_decide_eq_true_2.
    + apply orb_true_iff. right.
      by apply negb_true_iff, bool_decide_eq_false.
Qed.

Lemma hidden_show_only_tree p r r' t :
  wf_project p → r ∈ raster_layers p → r' ∈ raster_layers p → r' ≠ r →
  show_only_tree (raster_layers p) (vector_layers p) r t !! layer_id r'
    = Some false.
Proof.
  intros Hwf Hr Hr' Hne.
  apply elem_of_raster_layers in Hr' as Hr''. destruct Hr'' as [Hv Ht].
  rewrite (show_only_tree_lookup p) by done.
  rewrite bool_decide_eq_false_2 by done.
  unfold is_raster. by rewrite bool_decide_eq_true_2.
Qed.


(** ** The visibility invariant *)

(** C1: at the export step of the iteration for a raster layer [r] (the
    directory created, the iterations of the earlier raster layers done, the
    hide-all / show-current / show-vectors phase and the reload of this
    iteration done, the export call next), the visible layers are exactly
    [r] and the layers that are not raster layers, and every other raster
    layer is hidden. *)
Theorem export_step_visible_set p ln out t0 fs0 rs1 r rs2 :
  wf_project p →
  has_nodes (values (mapLayers p)) t0 →
  creatable out fs0 →
  raster_layers p = rs1 ++ r :: rs2 →
  let rs := raster_layers p in
  let vs := vector_layers p in
  let layout := layoutByName p ln in
  ∃ w1,
    (makedirs out true >>
     for_each (iteration p layout out rs vs) rs1 >>
     show_only rs vs r) (initial t0 fs0) = Ok tt w1 ∧
    export_layout p ln out (initial t0 fs0) =
      (export_step p layout out r >>
       for_each (iteration p layout out rs vs) rs2 >>
       print summary_line) w1 ∧
    last (trace w1) = Some EReload ∧
    length (exports (trace w1)) = length rs1 ∧
    shows_only p r (tree w1) ∧
    (∀ r', r' ∈ rs → r' ≠ r → tree w1 !! layer_id r' = Some false).
Proof.
  intros Hwf Hn Hc Hrs rs vs layout.
  destruct (makedirs_fs_ok out fs0 Hc) as (fs1 & Hmk & _).
  assert (r ∈ raster_layers p) as Hr.
  { rewrite Hrs. apply elem_of_app. right. by left. }
  pose proof (before_export_ok p ln out t0 fs0 fs1 rs1 r rs2 Hn Hmk Hrs)
    as Hpre. cbv zeta in Hpre. fold rs vs layout in Hpre.
  eexists. split; [exact Hpre|]. split.
  { by apply (export_layout_split p ln out rs1 r rs2). }
  cbn [tree trace]. split; [|split; [|split]].
  - by rewrite !app_assoc, last_snoc.
  - rewrite !exports_app, exports_loop, exports_toggles. simpl.
    by rewrite app_nil_r, length_fmap.
  - by apply shows_only_show_only_tree.
  - intros r' Hr' Hne. by apply hidden_show_only_tree.
Qed.

Lemma demo_wf : wf_project demo_project.
Proof. split; [by apply (bool_decide_unpack _) | by repeat constructor]. Qed.

Lemma demo_has_nodes : has_nodes (values (mapLayers demo_project)) demo_tree.
Proof. repeat constructor; by eexists. Qed.

Lemma demo_has_nodes' : has_nodes (values (mapLayers demo_project)) demo_tree'.
Proof. repeat constructor; by eexists. Qed.

Lemma empty_disk_creatable : creatable "desired_output_directory" ∅.
Proof. right. by repeat constructor. Qed.

Lemma export_step_visible_set_witness :
  ∃ w1,
    (makedirs "desired_output_directory" true >>
     for_each (iteration demo_project (layoutByName demo_project "Layout_Name")
                 "desired_output_directory" (raster_layers demo_project)
                 (vector_layers demo_project)) [dem] >>
     show_only (raster_layers demo_project) (vector_layers demo_project) ortho)
      (initial demo_tree ∅) = Ok tt w1 ∧
    shows_only demo_project ortho (tree w1) ∧
    tree w1 !! layer_id dem = Some false.
Proof.
  destruct (export_step_visible_set demo_project "Layout_Name"
              "desired_output_directory" demo_tree ∅ [dem] ortho []
              demo_wf demo_has_nodes empty_disk_creatable eq_refl)
    as (w1 & H1 & _ & _ & _ & H2 & H3).
  exists w1. split; [exact H1|]. split; [exact H2|].
  apply H3; [by apply (bool_decide_unpack _) | done].
Defined.

(** ** History independence of the iteration body *)

Lemma show_only_tree_lookup_gen rs vs r t i :
  show_only_tree rs vs r t !! i =
    if decide (i ∈ layer_id <$> vs) then Some true
    else if decide (i = layer_id r) then Some true
    else if decide (i ∈ layer_id <$> rs) then Some false
    else t !! i.
Proof.
  unfold show_only_tree. rewrite set_flags_lookup.
  destruct (decide (i ∈ layer_id <$> vs)); [done|].
  destruct (decide (i = layer_id r)) as [->|Hne].
  - by rewrite lookup_insert_eq.
  - rewrite lookup_insert_ne by done. apply set_flags_lookup.
Qed.

Lemma layer_partition p l :
  l ∈ values (mapLayers p) → l ∈ raster_layers p ∨ l ∈ vector_layers p.
Proof.
  intros Hl. destruct (decide (layer_type l = RasterLayer)).
  - left. by apply elem_of_raster_layers.
  - right. by apply elem_of_vector_layers.
Qed.

(** C9: the visibility state at the export step of [r] does not depend on
    the visibility state before the iteration: lines 38-49 run from any two
    worlds give every layer of the project the same flag, hence the same
    rendered image; when the two trees hold nodes of project layers only,
    they end up equal. *)
Theorem show_only_history_independent p r wa wb :
  r ∈ raster_layers p →
  has_nodes (values (mapLayers p)) (tree wa) →
  has_nodes (values (mapLayers p)) (tree wb) →
  let rs := raster_layers p in
  let vs := vector_layers p in
  ∃ wa' wb',
    show_only rs vs r wa = Ok tt wa' ∧
    show_only rs vs r wb = Ok tt wb' ∧
    (∀ l, l ∈ values (mapLayers p) →
          tree wa' !! layer_id l = tree wb' !! layer_id l) ∧
    (∀ layout, render p layout (tree wa') = render p layout (tree wb')) ∧
    ((∀ i, is_Some (tree wa !! i) ∨ is_Some (tree wb !! i) →
           i ∈ layer_id <$> values (mapLayers p)) →
     tree wa' = tree wb').
Proof.
  intros Hr Ha Hb rs vs.
  assert (∀ t t' l, l ∈ values (mapLayers p) →
            show_only_tree rs vs r t !! layer_id l =
            show_only_tree rs vs r t' !! layer_id l) as Hsame.
  { intros t t' l Hl. rewrite !show_only_tree_lookup_gen.
    destruct (decide (layer_id l ∈ layer_id <$> vs)); [done|].
    destruct (decide (layer_id l = layer_id r)); [done|].
    rewrite !decide_True; [done | |].
    all: destruct (layer_partition p l Hl) as [H|H];
      [by apply list_elem_of_fmap_2
      | by apply (list_elem_of_fmap_2 layer_id) in H]. }
  eexists _, _.
  split; [apply show_only_ok; by try apply has_nodes_filter |].
  split; [apply show_only_ok; by try apply has_nodes_filter |].
  cbn [tree]. split; [by intros; apply Hsame |]. split.
  - intros layout. unfold render. f_equal.
    apply List.filter_ext_in. intros l Hl%list_elem_of_In.
    unfold checked. by rewrite (Hsame (tree wa) (tree wb)).
  - intros Hdom. apply map_eq. intros i.
    destruct (decide (i ∈ layer_id <$> values (mapLayers p))) as [Hi|Hi].
    + apply list_elem_of_fmap in Hi as (l & -> & Hl). by apply Hsame.
    + rewrite !show_only_tree_lookup_gen.
      destruct (decide (i ∈ layer_id <$> vs)); [done|].
      destruct (decide (i = layer_id r)); [done|].
      destruct (decide (i ∈ layer_id <$> rs)); [done|].
      destruct (tree wa !! i) as [a|] eqn:Ea.
      { exfalso. apply Hi, Hdom. left. by eexists. }
      destruct (tree wb !! i) as [b|] eqn:Eb; [|done].
      exfalso. apply Hi, Hdom. right. by eexists.
Qed.

Lemma show_only_history_independent_witness :
  ∃ wa' wb',
    show_only (raster_layers demo_project) (vector_layers demo_project) ortho
      (initial demo_tree ∅) = Ok tt wa' ∧
    show_only (raster_layers demo_project) (vector_layers demo_project) ortho
      (initial demo_tree' ∅) = Ok tt wb' ∧
    tree wa' = tree wb'.
Proof.
  destruct (show_only_history_independent demo_project ortho
              (initial demo_tree ∅) (initial demo_tree' ∅))
    as (wa' & wb' & Ha & Hb & _ & _ & Heq).
  - by apply (bool_decide_unpack _).
  - exact demo_has_nodes.
  - exact demo_has_nodes'.
  - exists wa', wb'. split; [exact Ha|]. split; [exact Hb|].
    apply Heq. intros i [[v Hv]|[v Hv]]; simpl in Hv.
    + apply (elem_of_dom_2 (D := gset string)) in Hv. revert i Hv.
      by apply (bool_decide_unpack _).
    + apply (elem_of_dom_2 (D := gset string)) in Hv. revert i Hv.
      by apply (bool_decide_unpack _).
Defined.

(** ** After the run *)

(** C8: nothing restores the flags when the loop ends.  For a project with
    at least one raster layer, whatever the flags were when the project was
    loaded, the run ends with exactly the last raster layer and the layers
    that are not raster layers visible; so the tree differs from the loaded
    one unless that was its shape already. *)
Theorem final_visible_set p ln out t0 fs0 r :
  wf_project p →
  has_nodes (values (mapLayers p)) t0 →
  creatable out fs0 →
  last (raster_layers p) = Some r →
  ∃ w,
    export_layout p ln out (initial t0 fs0) = Ok tt w ∧
    shows_only p r (tree w) ∧
    (¬ shows_only p r t0 → tree w ≠ t0).
Proof.
  intros Hwf Hn Hc Hlast.
  destruct (makedirs_fs_ok out fs0 Hc) as (fs1 & Hmk & _).
  apply last_Some in Hlast as [rs' Hrs].
  assert (r ∈ raster_layers p) as Hr.
  { rewrite Hrs. apply elem_of_app. right. by left. }
  rewrite (export_layout_ok p ln out t0 fs0 fs1) by done. cbv zeta.
  eexists. split; [done|]. cbn [tree].
  rewrite (loop_state_last _ _ _ _ _ _ rs' r) by done.
  pose proof (shows_only_show_only_tree p r
    (loop_state p (layoutByName p ln) out (raster_layers p)
       (vector_layers p) rs' t0 fs1).1 Hwf Hr) as Hshow.
  split; [done|]. intros Hnot Heq. apply Hnot. by rewrite <- Heq.
Qed.

Lemma final_visible_set_witness :
  ∃ w,
    main demo_project (initial demo_tree ∅) = Ok tt w ∧
    shows_only demo_project ortho (tree w) ∧
    tree w ≠ demo_tree.
Proof.
  destruct (final_visible_set demo_project "Layout_Name"
              "desired_output_directory" demo_tree ∅ ortho
              demo_wf demo_has_nodes empty_disk_creatable eq_refl)
    as (w & Hrun & Hshow & Hdiff).
  exists w. split; [exact Hrun|]. split; [exact Hshow|].
  apply Hdiff. intros H.
  assert (demo_tree !! layer_id dem = Some true) as Hdem by done.
  apply H in Hdem as [Hdem|Hdem]; [done | by apply Hdem |].
  by apply (bool_decide_unpack _).
Defined.

(** ** Vector layers *)

Lemma replay_keeps_true es t i :
  ESetVisible i false ∉ es →
  t !! i = Some true ∨ ESetVisible i true ∈ es →
  replay es t !! i = Some true.
Proof.
  revert t. induction es as [|e es IH]; intros t Hno Hyes.
  - destruct Hyes as [?|H]; [done | by apply elem_of_nil in H].
  - apply not_elem_of_cons in Hno as [Hne Hno].
    change (replay (e :: es) t) with (replay es (apply_event e t)).
    apply IH; [done|].
    destruct (decide (e = ESetVisible i true)) as [->|Hne'].
    { left. simpl. by rewrite lookup_insert_eq. }
    destruct Hyes as [Ht|[?|Hin]%elem_of_cons]; [|done|by right].
    left. destruct e as [| j b | | |]; simpl; try done.
    destruct (decide (j = i)) as [->|Hji].
    + destruct b; congruence.
    + by rewrite lookup_insert_ne.
Qed.

Lemma elem_of_flat_map {A B} (f : A → list B) (l : list A) y :
  y ∈ flat_map f l ↔ ∃ x, x ∈ l ∧ y ∈ f x.
Proof.
  rewrite list_elem_of_In, in_flat_map. split.
  - intros (x & Hx & Hy). exists x. by rewrite !list_elem_of_In.
  - intros (x & Hx & Hy). exists x. by rewrite <- !list_elem_of_In.
Qed.

(** Only raster layers are ever hidden. *)
Lemma hide_event_raster out rs vs todo i :
  ESetVisible i false ∈ flat_map (iteration_events out rs vs) todo →
  i ∈ layer_id <$> rs.
Proof.
  intros (r & _ & Hin)%elem_of_flat_map. unfold iteration_events, toggles in Hin.
  rewrite !elem_of_app in Hin.
  destruct Hin as [[Hin|[Hin|Hin]]|Hin].
  - apply list_elem_of_fmap in Hin as (l & [= ->] & Hl).
    by apply list_elem_of_fmap_2.
  - by apply list_elem_of_singleton in Hin.
  - by apply list_elem_of_fmap in Hin as (l & [=] & Hl).
  - rewrite !elem_of_cons in Hin.
    destruct Hin as [?|[?|[?|Hin]]]; try done. by apply elem_of_nil in Hin.
Qed.

(** C4: no call of the run hides a layer that is not a raster layer; so at
    every point of the run (after every prefix of the calls made) the flag
    of such a layer is set if it was set when the project was loaded, or if
    the loop has shown the layer before that point. *)
Theorem vector_layers_never_hidden p ln out t0 fs0 v :
  wf_project p →
  has_nodes (values (mapLayers p)) t0 →
  creatable out fs0 →
  v ∈ values (mapLayers p) →
  layer_type v ≠ RasterLayer →
  ∃ w,
    export_layout p ln out (initial t0 fs0) = Ok tt w ∧
    (ESetVisible (layer_id v) false ∉ trace w) ∧
    (∀ pre post, trace w = pre ++ post →
       t0 !! layer_id v = Some true ∨ ESetVisible (layer_id v) true ∈ pre →
       replay pre t0 !! layer_id v = Some true).
Proof.
  intros Hwf Hn Hc Hv Hty.
  destruct (makedirs_fs_ok out fs0 Hc) as (fs1 & Hmk & _).
  rewrite (export_layout_ok p ln out t0 fs0 fs1) by done. cbv zeta.
  eexists. split; [done|]. cbn [trace].
  assert (ESetVisible (layer_id v) false ∉
            [EMakedirs out true]
            ++ flat_map (iteration_events out (raster_layers p)
                           (vector_layers p)) (raster_layers p)
            ++ [EPrint summary_line]) as Hno.
  { rewrite !elem_of_app.
    intros [Hin%list_elem_of_singleton|[Hin|Hin%list_elem_of_singleton]];
      [done| |done].
    apply hide_event_raster in Hin.
    apply list_elem_of_fmap in Hin as (l & Hid & Hl).
    apply elem_of_raster_layers in Hl as [Hl Hlt].
    apply Hty. by rewrite (layer_id_inj p v l). }
  split; [done|]. intros pre post Hsplit Hyes.
  apply replay_keeps_true; [|done].
  intros Hin. apply Hno. rewrite Hsplit. apply elem_of_app. by left.
Qed.

Lemma vector_layers_never_hidden_witness :
  ∃ w,
    main demo_project (initial demo_tree' ∅) = Ok tt w ∧
    (ESetVisible (layer_id roads) false ∉ trace w).
Proof.
  destruct (vector_layers_never_hidden demo_project "Layout_Name"
              "desired_output_directory" demo_tree' ∅ roads
              demo_wf demo_has_nodes' empty_disk_creatable)
    as (w & Hrun & Hno & _).
  - by apply (bool_decide_unpack _).
  - done.
  - exists w. by split.
Defined.

(** ** Order of the calls *)

Lemma toggles_are_toggles rs vs r :
  Forall (λ e, is_toggle e = true) (toggles rs vs r).
Proof.
  unfold toggles. rewrite !Forall_app, !Forall_fmap. repeat split.
  - by apply Forall_true.
  - by repeat constructor.
  - by apply Forall_true.
Qed.

Lemma last_iteration_events out rs vs r :
  last (iteration_events out rs vs r) =
    Some (EPrint ("Saved: " +:+ out_path out r)).
Proof. unfold iteration_events. by rewrite last_app. Qed.

(** C7: the calls of a run are the directory creation, then for each raster
    layer in turn one block made of all the visibility changes of the
    iteration, then the reload, then the export (then the confirmation
    line), and at the end the summary line.  So within an iteration the
    reload comes after every visibility change and right before the
    export. *)
Theorem calls_in_order p ln out t0 fs0 :
  has_nodes (values (mapLayers p)) t0 →
  creatable out fs0 →
  let rs := raster_layers p in
  let vs := vector_layers p in
  ∃ w,
    export_layout p ln out (initial t0 fs0) = Ok tt w ∧
    trace w =
      [EMakedirs out true]
      ++ flat_map (λ r, toggles rs vs r
                        ++ [EReload; EExport (out_path out r);
                            EPrint ("Saved: " +:+ out_path out r)]) rs
      ++ [EPrint summary_line] ∧
    (∀ r, Forall (λ e, is_toggle e = true) (toggles rs vs r)) ∧
    (∀ rs1 r rs2, rs = rs1 ++ r :: rs2 →
       ∃ pre post,
         trace w = pre ++ toggles rs vs r
                   ++ [EReload; EExport (out_path out r)] ++ post ∧
         length (exports pre) = length rs1 ∧
         (∀ e, last pre = Some e → is_toggle e = false) ∧
         Forall (λ e, is_toggle e = false) (take 1 post)).
Proof.
  intros Hn Hc rs vs.
  destruct (makedirs_fs_ok out fs0 Hc) as (fs1 & Hmk & _).
  rewrite (export_layout_ok p ln out t0 fs0 fs1) by done. cbv zeta.
  fold rs vs. eexists. split; [done|]. cbn [trace].
  split; [done|]. split; [intros r; apply toggles_are_toggles|].
  intros rs1 r rs2 Hrs.
  exists ([EMakedirs out true] ++ flat_map (iteration_events out rs vs) rs1),
    (EPrint ("Saved: " +:+ out_path out r)
     :: flat_map (iteration_events out rs vs) rs2 ++ [EPrint summary_line]).
  split; [|split; [|split]].
  - rewrite Hrs at 2. rewrite flat_map_app. simpl.
    unfold iteration_events at 2. by rewrite <- !app_assoc.
  - rewrite exports_app, exports_loop. simpl. by rewrite length_fmap.
  - intros e. destruct rs1 as [|r1 rs1 _] using rev_ind.
    + simpl. by intros [= <-].
    + rewrite flat_map_app. cbn [flat_map]. rewrite app_nil_r.
      rewrite !last_app, last_iteration_events. by intros [= <-].
  - simpl. by repeat constructor.
Qed.

Lemma calls_in_order_witness :
  ∃ w,
    main demo_project (initial demo_tree ∅) = Ok tt w ∧
    trace w =
      [EMakedirs "desired_output_directory" true;
       ESetVisible "r1" false; ESetVisible "r2" false;
       ESetVisible "r1" true; ESetVisible "v1" true;
       EReload; EExport "desired_output_directory/dem.png";
       EPrint "Saved: desired_output_directory/dem.png";
       ESetVisible "r1" false; ESetVisible "r2" false;
       ESetVisible "r2" true; ESetVisible "v1" true;
       EReload; EExport "desired_output_directory/ortho.png";
       EPrint "Saved: desired_output_directory/ortho.png";
       EPrint "All styled images exported!"].
Proof.
  destruct (calls_in_order demo_project "Layout_Name"
              "desired_output_directory" demo_tree ∅
              demo_has_nodes empty_disk_creatable)
    as (w & Hrun & Htrace & _).
  exists w. split; [exact Hrun|]. exact Htrace.
Defined.

(** ** Exports and console output *)

(** C5: without raster layers the run makes no export call and prints the
    summary line and nothing else; in particular no confirmation line. *)
Theorem no_raster_layers p ln out t0 fs0 :
  creatable out fs0 →
  raster_layers p = [] →
  ∃ w,
    export_layout p ln out (initial t0 fs0) = Ok tt w ∧
    exports (trace w) = [] ∧
    stdout (trace w) = [summary_line] ∧
    Forall (λ s, is_saved_line s = false) (stdout (trace w)).
Proof.
  intros Hc Hrs.
  destruct (makedirs_fs_ok out fs0 Hc) as (fs1 & Hmk & _).
  unfold export_layout. rewrite Hrs. cbn [for_each]. unfold bind at 1.
  rewrite (makedirs_ok out fs1) by done.
  unfold bind, ret, print, emit. cbn [initial tree files trace].
  eexists. split; [done|]. cbn [trace]. repeat split.
  by repeat constructor.
Qed.

Lemma no_raster_layers_witness :
  ∃ w,
    main vector_project (initial ∅ ∅) = Ok tt w ∧
    exports (trace w) = [] ∧
    stdout (trace w) = ["All styled images exported!"].
Proof.
  destruct (no_raster_layers vector_project "Layout_Name"
              "desired_output_directory" ∅ ∅ empty_disk_creatable eq_refl)
    as (w & Hrun & Hex & Hout & _).
  exists w. split; [exact Hrun|]. split; [exact Hex | exact Hout].
Defined.

Lemma startswith_sep_png n :
  startswith_sep (n +:+ ".png") = startswith_sep n.
Proof. by destruct n. Qed.

Lemma out_path_spec out r :
  startswith_sep (layer_name r) = false →
  out ≠ "" → endswith_sep out = false →
  out_path out r = spec_out_path out r.
Proof.
  intros Hn Ho He. unfold out_path, path_join, spec_out_path.
  rewrite startswith_sep_png, Hn, He.
  by rewrite bool_decide_eq_false_2.
Qed.

Lemma out_path_rooted out r :
  startswith_sep (layer_name r) = true →
  out_path out r = layer_name r +:+ ".png".
Proof.
  intros Hn. unfold out_path, path_join.
  by rewrite startswith_sep_png, Hn.
Qed.

Lemma rooted_has_nodes :
  has_nodes (values (mapLayers rooted_project)) rooted_tree.
Proof. repeat constructor; by eexists. Qed.

(** C2: the claim gives [<output_dir>/<R.name>.png] as the path of the
    export for raster layer R.  Run on a project whose one raster layer is
    named [/tmp/dem], the script makes its one export call with the path
    [/tmp/dem.png], outside the output directory, where the claim has
    [desired_output_directory//tmp/dem.png]: line 53 joins folder and file
    name with [os.path.join], which drops the folder when the name starts
    with the separator. *)
Lemma rooted_name_export_path :
  ∃ w,
    main rooted_project (initial rooted_tree ∅) = Ok tt w ∧
    exports (trace w) = ["/tmp/dem.png"] ∧
    spec_out_path "desired_output_directory" <$> raster_layers rooted_project
      = ["desired_output_directory//tmp/dem.png"] ∧
    exports (trace w) ≠
      spec_out_path "desired_output_directory" <$> raster_layers rooted_project.
Proof.
  destruct (makedirs_fs_ok "desired_output_directory" ∅ empty_disk_creatable)
    as (fs1 & Hmk & _).
  unfold main.
  rewrite (export_layout_ok rooted_project "Layout_Name"
             "desired_output_directory" rooted_tree ∅ fs1
             rooted_has_nodes Hmk).
  cbv zeta. eexists. split; [done|]. cbn [trace]. by repeat split.
Qed.

(** ** Files written *)






(** ** The output directory *)



Lemma disk_after_run_creatable :
  creatable "desired_output_directory" disk_after_run.
Proof. by left. Qed.

(** ** The logger *)

Lemma sinks_configure_logger lg : sinks (configure_logger lg) = [console_handler].
Proof.
  unfold sinks, configure_logger, logger_add, logger_remove. simpl.
  by rewrite insert_empty, map_to_list_singleton.
Qed.

(** C10: [configure_logger] removes every handler and adds the one console
    handler, so after one call and after two calls in a row the logger has
    the same sink configuration: exactly one handler, on standard output,
    with the same format. *)
Theorem configure_logger_idempotent lg :
  sinks (configure_logger (configure_logger lg)) = sinks (configure_logger lg) ∧
  sinks (configure_logger lg) = [console_handler] ∧
  size (handlers (configure_logger (configure_logger lg))) = 1 ∧
  size (handlers (configure_logger lg)) = 1.
Proof.
  rewrite !sinks_configure_logger. repeat split.
  - unfold configure_logger, logger_add, logger_remove. simpl.
    by rewrite insert_empty, map_size_singleton.
  - unfold configure_logger, logger_add, logger_remove. simpl.
    by rewrite insert_empty, map_size_singleton.
Qed.

(** The handler ids differ all the same: each call takes a fresh one. *)
Lemma configure_logger_fresh_id lg :
  handlers (configure_logger lg) = {[ handlers_count lg := console_handler ]} ∧
  handlers (configure_logger (configure_logger lg))
    = {[ S (handlers_count lg) := console_handler ]}.
Proof.
  unfold configure_logger, logger_add, logger_remove. simpl.
  by rewrite !insert_empty.
Qed.

(** ** Edge cases *)

(** A layer of the project without a node in the layer tree: [findLayer]
    gives [None] and the run stops with an exception at the first call on
    it, before any export. *)
Lemma missing_node_raises :
  ∃ w,
    main demo_project (initial (delete "v1" demo_tree) ∅)
      = Raise AttributeError w ∧
    exports (trace w) = [].
Proof. eexists. split; [by vm_compute | done]. Qed.

(** A vector layer that was hidden when the project was loaded is still
    hidden while the first iteration hides the raster layers; step c of that
    iteration shows it. *)
Lemma hidden_vector_until_shown :
  replay [EMakedirs "desired_output_directory" true;
          ESetVisible "r1" false; ESetVisible "r2" false] demo_tree
    !! layer_id roads = Some false ∧
  replay [EMakedirs "desired_output_directory" true;
          ESetVisible "r1" false; ESetVisible "r2" false;
          ESetVisible "r1" true; ESetVisible "v1" true] demo_tree
    !! layer_id roads = Some true.
Proof. by split. Qed.

(** ** The two layer lists *)

Lemma List_filter_sublist {A} (f : A → bool) (l : list A) :
  sublist (List.filter f l) l.
Proof.
  induction l as [|x l IH]; simpl; [constructor|].
  destruct (f x); by constructor.
Qed.

Lemma List_filter_split {A} (f : A → bool) (l : list A) :
  List.filter f l ++ List.filter (λ x, negb (f x)) l ≡ₚ l.
Proof.
  induction l as [|x l IH]; simpl; [done|].
  destruct (f x); simpl.
  - by rewrite IH.
  - by rewrite <- Permutation_middle, IH.
Qed.

Lemma layer_lists_length p :
  length (raster_layers p) + length (vector_layers p)
    = length (values (mapLayers p)).
Proof.
  rewrite <- length_app. apply Permutation_length.
  apply List_filter_split.
Qed.

(** X1: lines 18-29 split the layers of the project in two: every layer is
    in one of the two lists (with its multiplicity), none is in both, and
    each list keeps the project's iteration order. *)
Theorem layers_partitioned p :
  raster_layers p ++ vector_layers p ≡ₚ values (mapLayers p) ∧
  (∀ l, l ∈ raster_layers p → l ∉ vector_layers p) ∧
  sublist (raster_layers p) (values (mapLayers p)) ∧
  sublist (vector_layers p) (values (mapLayers p)).
Proof.
  split; [apply List_filter_split|]. split; [|split].
  - intros l [_ Hr]%elem_of_raster_layers [_ Hv]%elem_of_vector_layers.
    by apply Hv.
  - apply List_filter_sublist.
  - apply List_filter_sublist.
Qed.

(** ** Console output and number of calls *)

Lemma stdout_set b (ls : list QgsMapLayer) :
  stdout ((λ l, ESetVisible (layer_id l) b) <$> ls) = [].
Proof. by induction ls. Qed.

Lemma stdout_iteration_events out rs vs r :
  stdout (iteration_events out rs vs r) = [saved_line (out_path out r)].
Proof.
  unfold iteration_events, toggles.
  by rewrite !stdout_app, !stdout_set.
Qed.

Lemma stdout_loop out rs vs todo :
  stdout (flat_map (iteration_events out rs vs) todo)
    = (λ r, saved_line (out_path out r)) <$> todo.
Proof.
  induction todo as [|r todo IH]; [done|].
  simpl. by rewrite stdout_app, stdout_iteration_events, IH.
Qed.

(** X2: the console output of a run is one confirmation line per export
    call, in the order of the exports and each naming the path exported to,
    followed by the summary line. *)
Theorem console_output p ln out t0 fs0 :
  has_nodes (values (mapLayers p)) t0 →
  creatable out fs0 →
  ∃ w,
    export_layout p ln out (initial t0 fs0) = Ok tt w ∧
    stdout (trace w) = (saved_line <$> exports (trace w)) ++ [summary_line] ∧
    length (stdout (trace w)) = S (length (raster_layers p)) ∧
    last (stdout (trace w)) = Some summary_line.
Proof.
  intros Hn Hc.
  destruct (makedirs_fs_ok out fs0 Hc) as (fs1 & Hmk & _).
  rewrite (export_layout_ok p ln out t0 fs0 fs1) by done. cbv zeta.
  eexists. split; [done|]. cbn [trace].
  rewrite !stdout_app, !exports_app, stdout_loop, exports_loop.
  change (stdout [EMakedirs out true]) with (@nil string).
  change (exports [EMakedirs out true]) with (@nil string).
  change (stdout [EPrint summary_line]) with [summary_line].
  change (exports [EPrint summary_line]) with (@nil string).
  rewrite !app_nil_l, app_nil_r.
  split; [by rewrite <- list_fmap_compose|]. split.
  - rewrite length_app, length_fmap. simpl. lia.
  - by rewrite last_snoc.
Qed.

Lemma console_output_witness :
  ∃ w,
    main demo_project (initial demo_tree ∅) = Ok tt w ∧
    length (stdout (trace w)) = 3 ∧
    last (stdout (trace w)) = Some "All styled images exported!".
Proof.
  destruct (console_output demo_project "Layout_Name"
              "desired_output_directory" demo_tree ∅
              demo_has_nodes empty_disk_creatable)
    as (w & Hrun & _ & Hlen & Hlast).
  exists w. split; [exact Hrun|]. split; [exact Hlen | exact Hlast].
Defined.

Lemma count_calls_app kind es1 es2 :
  count_calls kind (es1 ++ es2) = count_calls kind es1 + count_calls kind es2.
Proof. unfold count_calls. by rewrite List.filter_app, length_app. Qed.

Lemma count_toggles_set b (ls : list QgsMapLayer) :
  count_calls is_toggle ((λ l, ESetVisible (layer_id l) b) <$> ls) = length ls.
Proof.
  unfold count_calls. induction ls as [|l ls IH]; [done|].
  simpl. f_equal. exact IH.
Qed.

Lemma count_reloads_set b (ls : list QgsMapLayer) :
  count_calls is_reload ((λ l, ESetVisible (layer_id l) b) <$> ls) = 0.
Proof. unfold count_calls. by induction ls. Qed.

Lemma count_toggles_iteration out rs vs r :
  count_calls is_toggle (iteration_events out rs vs r)
    = S (length rs + length vs).
Proof.
  unfold iteration_events, toggles.
  rewrite !count_calls_app, !count_toggles_set.
  unfold count_calls. simpl. lia.
Qed.

Lemma count_reloads_iteration out rs vs r :
  count_calls is_reload (iteration_events out rs vs r) = 1.
Proof.
  unfold iteration_events, toggles.
  rewrite !count_calls_app, !count_reloads_set.
  by unfold count_calls.
Qed.

Lemma count_calls_loop kind out rs vs todo c :
  (∀ r, count_calls kind (iteration_events out rs vs r) = c) →
  count_calls kind (flat_map (iteration_events out rs vs) todo)
    = length todo * c.
Proof.
  intros Hc. induction todo as [|r todo IH]; [done|].
  simpl. by rewrite count_calls_app, Hc, IH.
Qed.

(** X3: a run reloads the layers once per raster layer, and changes a
    visibility flag (number of raster layers) times (number of layers of the
    project plus one) times: every iteration touches every layer once, and
    the current raster layer twice. *)
Theorem call_counts p ln out t0 fs0 :
  has_nodes (values (mapLayers p)) t0 →
  creatable out fs0 →
  ∃ w,
    export_layout p ln out (initial t0 fs0) = Ok tt w ∧
    count_calls is_reload (trace w) = length (raster_layers p) ∧
    count_calls is_toggle (trace w)
      = length (raster_layers p) * S (length (values (mapLayers p))).
Proof.
  intros Hn Hc.
  destruct (makedirs_fs_ok out fs0 Hc) as (fs1 & Hmk & _).
  rewrite (export_layout_ok p ln out t0 fs0 fs1) by done. cbv zeta.
  eexists. split; [done|]. cbn [trace].
  rewrite !count_calls_app.
  rewrite (count_calls_loop is_reload _ _ _ _ 1)
    by apply count_reloads_iteration.
  rewrite (count_calls_loop is_toggle _ _ _ _
             (S (length (raster_layers p) + length (vector_layers p))))
    by apply count_toggles_iteration.
  rewrite layer_lists_length. unfold count_calls. simpl. lia.
Qed.

Lemma call_counts_witness :
  ∃ w,
    main demo_project (initial demo_tree ∅) = Ok tt w ∧
    count_calls is_reload (trace w) = 2 ∧
    count_calls is_toggle (trace w) = 8.
Proof.
  destruct (call_counts demo_project "Layout_Name"
              "desired_output_directory" demo_tree ∅
              demo_has_nodes empty_disk_creatable)
    as (w & Hrun & Hre & Htg).
  exists w. split; [exact Hrun|]. split; [exact Hre | exact Htg].
Defined.

(** ** Which layers share an output file *)

Lemma string_app_length s1 s2 :
  String.length (s1 +:+ s2) = String.length s1 + String.length s2.
Proof. induction s1 as [|a s1 IH]; simpl; [done | by rewrite IH]. Qed.

Lemma string_app_inj_r s1 s2 t : s1 +:+ t = s2 +:+ t → s1 = s2.
Proof.
  revert s2. induction s1 as [|a s1 IH]; intros [|b s2] H; [done | | |].
  - apply (f_equal String.length) in H.
    rewrite !string_app_length in H. simpl in H. lia.
  - apply (f_equal String.length) in H.
    rewrite !string_app_length in H. simpl in H. lia.
  - injection H as -> H. f_equal. by apply IH.
Qed.

Lemma startswith_sep_app s1 s2 :
  s1 ≠ "" → startswith_sep (s1 +:+ s2) = startswith_sep s1.
Proof. by destruct s1. Qed.

Lemma path_join_relative a b :
  startswith_sep a = false → startswith_sep b = false →
  startswith_sep (path_join a b) = false.
Proof.
  intros Ha Hb. unfold path_join. rewrite Hb.
  destruct (decide (a = "")) as [->|Hne].
  - done.
  - rewrite bool_decide_eq_false_2 by done. simpl.
    destruct (endswith_sep a); by rewrite startswith_sep_app.
Qed.

(** X4: with an output directory given as a relative path, two layers are
    exported to the same file exactly when they have the same name. *)
Theorem same_file_iff_same_name out r1 r2 :
  startswith_sep out = false →
  out_path out r1 = out_path out r2 ↔ layer_name r1 = layer_name r2.
Proof.
  intros Hout. split; [|unfold out_path; by intros ->].
  unfold out_path.
  destruct (startswith_sep (layer_name r1)) eqn:H1,
           (startswith_sep (layer_name r2)) eqn:H2.
  - unfold path_join. rewrite !startswith_sep_png, H1, H2.
    apply string_app_inj_r.
  - intros Heq.
    assert (startswith_sep (path_join out (layer_name r2 +:+ ".png")) = false)
      as Hrel by (apply path_join_relative; by rewrite ?startswith_sep_png).
    rewrite <- Heq in Hrel. unfold path_join in Hrel.
    rewrite startswith_sep_png, H1 in Hrel. cbv iota in Hrel.
    by rewrite startswith_sep_png, H1 in Hrel.
  - intros Heq.
    assert (startswith_sep (path_join out (layer_name r1 +:+ ".png")) = false)
      as Hrel by (apply path_join_relative; by rewrite ?startswith_sep_png).
    rewrite Heq in Hrel. unfold path_join in Hrel.
    rewrite startswith_sep_png, H2 in Hrel. cbv iota in Hrel.
    by rewrite startswith_sep_png, H2 in Hrel.
  - unfold path_join. rewrite !startswith_sep_png, H1, H2.
    destruct (bool_decide (out = "") || endswith_sep out).
    + intros H%(inj (String.app out)). by apply string_app_inj_r in H.
    + intros H%(inj (String.app out))%(inj (String.app "/")).
      by apply string_app_inj_r in H.
Qed.

Lemma same_file_iff_same_name_witness :
  out_path "desired_output_directory" dem
    = out_path "desired_output_directory" dem2 ∧
  out_path "desired_output_directory" dem
    ≠ out_path "desired_output_directory" ortho.
Proof.
  split.
  - by apply (same_file_iff_same_name "desired_output_directory" dem dem2).
  - intros H.
    by apply (same_file_iff_same_name "desired_output_directory" dem ortho)
      in H.
Defined.

(** With an output directory given as an absolute path, layers of different
    names can meet in one file. *)
Lemma absolute_directory_collision :
  out_path "/maps" (mk_layer "r1" "dem" RasterLayer).2
    = out_path "/maps" (mk_layer "r2" "/maps/dem" RasterLayer).2.
Proof. reflexivity. Qed.

(** ** The files a run leaves *)

Lemma show_only_tree_lookup_any p r t t' l :
  l ∈ values (mapLayers p) →
  show_only_tree (raster_layers p) (vector_layers p) r t !! layer_id l =
  show_only_tree (raster_layers p) (vector_layers p) r t' !! layer_id l.
Proof.
  intros Hl. rewrite !show_only_tree_lookup_gen.
  destruct (decide (layer_id l ∈ layer_id <$> vector_layers p)); [done|].
  destruct (decide (layer_id l = layer_id r)); [done|].
  rewrite !decide_True; [done | |].
  all: destruct (layer_partition p l Hl) as [H|H];
    [by apply list_elem_of_fmap_2
    | by apply (list_elem_of_fmap_2 layer_id) in H].
Qed.

Lemma render_show_only_tree_any p layout r t :
  render p layout (show_only_tree (raster_layers p) (vector_layers p) r t)
    = image_of p layout r.
Proof.
  unfold image_of, render. f_equal.
  apply List.filter_ext_in. intros l Hl%list_elem_of_In.
  unfold checked. by rewrite (show_only_tree_lookup_any p r t ∅).
Qed.

Lemma loop_state_files_writes p layout out todo t fs :
  (loop_state p layout out (raster_layers p) (vector_layers p) todo t fs).2
    = apply_writes (export_writes p layout out todo) fs.
Proof.
  revert t fs. induction todo as [|r todo IH]; intros t fs; [done|].
  simpl. by rewrite IH, render_show_only_tree_any.
Qed.

Lemma apply_writes_lookup_other ws fs q :
  q ∉ ws.*1 → apply_writes ws fs !! q = fs !! q.
Proof.
  revert fs. induction ws as [|[k n] ws IH]; intros fs Hq; [done|].
  apply not_elem_of_cons in Hq as [Hne Hq]. simpl in *.
  rewrite IH by done. by rewrite lookup_insert_ne.
Qed.

Lemma apply_writes_lookup_written ws fs q :
  q ∈ ws.*1 → ∃ n, n ∈ ws.*2 ∧ apply_writes ws fs !! q = Some n.
Proof.
  revert fs. induction ws as [|[k n] ws IH]; intros fs Hq.
  - by apply elem_of_nil in Hq.
  - simpl in *. destruct (decide (q ∈ ws.*1)) as [Hin|Hnotin].
    + destruct (IH (<[k := n]> fs) Hin) as (n' & Hn' & Hlook).
      exists n'. split; [by right | done].
    + apply elem_of_cons in Hq as [->|Hq]; [|done].
      exists n. split; [by left|].
      rewrite apply_writes_lookup_other by done.
      by rewrite lookup_insert_eq.
Qed.

(** Files that agree away from the paths written are equal after the
    writes. *)
Lemma apply_writes_agree ws fs fs' :
  (∀ q, q ∉ ws.*1 → fs !! q = fs' !! q) →
  apply_writes ws fs = apply_writes ws fs'.
Proof.
  revert fs fs'. induction ws as [|[k n] ws IH]; intros fs fs' Hag.
  - apply map_eq. intros q. apply Hag. apply not_elem_of_nil.
  - simpl. apply IH. intros q Hq.
    destruct (decide (q = k)) as [->|Hne].
    + by rewrite !lookup_insert_eq.
    + rewrite !lookup_insert_ne by done. apply Hag.
      simpl. by apply not_elem_of_cons.
Qed.

Lemma apply_writes_twice ws fs :
  apply_writes ws (apply_writes ws fs) = apply_writes ws fs.
Proof.
  apply apply_writes_agree. intros q Hq.
  by apply apply_writes_lookup_other.
Qed.

Lemma export_writes_paths p layout out todo :
  (export_writes p layout out todo).*1 = out_path out <$> todo.
Proof.
  unfold export_writes. rewrite <- list_fmap_compose.
  by apply list_fmap_ext.
Qed.

(** ** The load state and a second run *)

(** X7: the files written and the calls made do not depend on the
    visibility flags the project was loaded with: two runs on the same disk
    from any two load states end with the same files and the same trace. *)
Theorem output_independent_of_load_state p ln out t0 t0' fs0 :
  has_nodes (values (mapLayers p)) t0 →
  has_nodes (values (mapLayers p)) t0' →
  creatable out fs0 →
  ∃ w w',
    export_layout p ln out (initial t0 fs0) = Ok tt w ∧
    export_layout p ln out (initial t0' fs0) = Ok tt w' ∧
    files w = files w' ∧
    trace w = trace w'.
Proof.
  intros Hn Hn' Hc.
  destruct (makedirs_fs_ok out fs0 Hc) as (fs1 & Hmk & _).
  rewrite (export_layout_ok p ln out t0 fs0 fs1) by done.
  rewrite (export_layout_ok p ln out t0' fs0 fs1) by done. cbv zeta.
  eexists _, _. split; [done|]. split; [done|]. cbn [files trace].
  by rewrite !loop_state_files_writes.
Qed.

Lemma output_independent_of_load_state_witness :
  ∃ w w',
    main demo_project (initial demo_tree ∅) = Ok tt w ∧
    main demo_project (initial demo_tree' ∅) = Ok tt w' ∧
    files w = files w'.
Proof.
  destruct (output_independent_of_load_state demo_project "Layout_Name"
              "desired_output_directory" demo_tree demo_tree' ∅
              demo_has_nodes demo_has_nodes' empty_disk_creatable)
    as (w & w' & Hrun & Hrun' & Hfiles & _).
  exists w, w'. split; [exact Hrun|]. split; [exact Hrun' | exact Hfiles].
Defined.

Lemma loop_state_tree_other p layout out rs vs todo t fs i :
  todo ⊆ rs → i ∉ layer_id <$> rs → i ∉ layer_id <$> vs →
  (loop_state p layout out rs vs todo t fs).1 !! i = t !! i.
Proof.
  revert t fs. induction todo as [|r todo IH]; intros t fs Hsub Hr Hv; [done|].
  simpl. rewrite IH; [| intros x Hx; apply Hsub; by right | done | done].
  rewrite show_only_tree_lookup_gen.
  rewrite decide_False by done. rewrite decide_False.
  - by rewrite decide_False.
  - intros ->. apply Hr. apply list_elem_of_fmap_2. apply Hsub. by left.
Qed.

Lemma loop_state_tree_layer p layout out rs vs todo r t t' fs fs' i :
  todo ≠ [] → last todo = Some r →
  i ∈ layer_id <$> rs ∨ i ∈ layer_id <$> vs →
  (loop_state p layout out rs vs todo t fs).1 !! i =
  (loop_state p layout out rs vs todo t' fs').1 !! i.
Proof.
  intros _ [todo' Htodo]%last_Some Hi.
  rewrite !(loop_state_last _ _ _ _ _ todo todo' r) by done.
  rewrite !show_only_tree_lookup_gen.
  destruct (decide (i ∈ layer_id <$> vs)); [done|].
  destruct (decide (i = layer_id r)); [done|].
  rewrite !decide_True; [done | |]; by destruct Hi.
Qed.

(** Running the loop again from the tree it left changes nothing. *)
Lemma loop_state_tree_twice p layout out rs vs t fs fs' :
  (loop_state p layout out rs vs rs
     (loop_state p layout out rs vs rs t fs).1 fs').1
  = (loop_state p layout out rs vs rs t fs).1.
Proof.
  destruct (last rs) as [r|] eqn:Hlast.
  - apply map_eq. intros i.
    destruct (decide (i ∈ layer_id <$> rs)) as [Hr|Hr].
    { apply (loop_state_tree_layer _ _ _ _ _ _ r); [|done|by left].
      intros ->. done. }
    destruct (decide (i ∈ layer_id <$> vs)) as [Hv|Hv].
    { apply (loop_state_tree_layer _ _ _ _ _ _ r); [|done|by right].
      intros ->. done. }
    by rewrite !loop_state_tree_other.
  - by apply last_None in Hlast as ->.
Qed.

(** X8: a second run, started from the layer tree and the disk the first
    run left, goes through and leaves both as they were; it makes the same
    calls.  (No export path may be the output directory itself.) *)
Theorem rerun_changes_nothing p ln out t0 fs0 :
  has_nodes (values (mapLayers p)) t0 →
  creatable out fs0 →
  Forall (λ r, out_path out r ≠ out) (raster_layers p) →
  ∃ w1 w2,
    export_layout p ln out (initial t0 fs0) = Ok tt w1 ∧
    export_layout p ln out (initial (tree w1) (files w1)) = Ok tt w2 ∧
    tree w2 = tree w1 ∧
    files w2 = files w1 ∧
    trace w2 = trace w1.
Proof.
  intros Hn Hc Hpaths.
  destruct (makedirs_fs_ok out fs0 Hc) as (fs1 & Hmk & _).
  rewrite (export_layout_ok p ln out t0 fs0 fs1) by done. cbv zeta.
  eexists _, _. split; [done|]. cbn [tree files trace].
  set (rs := raster_layers p). set (vs := vector_layers p).
  set (layout := layoutByName p ln).
  set (st := loop_state p layout out rs vs rs t0 fs1).
  assert (st.2 !! out = Some Dir) as Hdir.
  { subst st rs vs. rewrite loop_state_files_writes.
    rewrite apply_writes_lookup_other.
    - by apply is_dir_Some, (makedirs_fs_is_dir out fs0).
    - rewrite export_writes_paths.
      intros (r & Hout & Hr)%list_elem_of_fmap.
      rewrite Forall_forall in Hpaths. by apply (Hpaths r). }
  assert (makedirs_fs out true st.2 = inr st.2) as Hmk2.
  { unfold makedirs_fs. by rewrite Hdir. }
  rewrite (export_layout_ok p ln out st.1 st.2 st.2);
    [| by apply loop_state_has_nodes | done].
  cbv zeta. fold rs vs layout. split; [done|]. cbn [tree files trace].
  split; [apply loop_state_tree_twice|]. split; [|done].
  subst st rs vs. rewrite !loop_state_files_writes.
  apply apply_writes_twice.
Qed.

Lemma demo_paths_not_directory :
  Forall (λ r, out_path "desired_output_directory" r
               ≠ "desired_output_directory") (raster_layers demo_project).
Proof. by repeat constructor. Qed.

Lemma rerun_changes_nothing_witness :
  ∃ w1 w2,
    main demo_project (initial demo_tree ∅) = Ok tt w1 ∧
    main demo_project (initial (tree w1) (files w1)) = Ok tt w2 ∧
    tree w2 = tree w1 ∧ files w2 = files w1.
Proof.
  destruct (rerun_changes_nothing demo_project "Layout_Name"
              "desired_output_directory" demo_tree ∅
              demo_has_nodes empty_disk_creatable demo_paths_not_directory)
    as (w1 & w2 & H1 & H2 & Ht & Hf & _).
  exists w1, w2. by repeat split.
Defined.

(** ** Nodes of the layer tree *)

Lemma dom_set_flags b ls (t : gmap string bool) :
  has_nodes ls t → dom (set_flags b ls t) = dom t.
Proof.
  revert t. induction ls as [|l ls IH]; intros t Hn; [done|].
  apply Forall_cons in Hn as [Hl Hn]. simpl.
  rewrite IH by by apply has_nodes_insert.
  rewrite dom_insert_L. apply elem_of_dom in Hl. set_solver.
Qed.

Lemma dom_show_only_tree rs vs r (t : gmap string bool) :
  has_nodes rs t → has_nodes vs t → r ∈ rs →
  dom (show_only_tree rs vs r t) = dom t.
Proof.
  intros Hrs Hvs Hr. unfold show_only_tree.
  rewrite dom_set_flags by by apply has_nodes_insert, has_nodes_set_flags.
  rewrite dom_insert_L, dom_set_flags by done.
  unfold has_nodes in Hrs. rewrite Forall_forall in Hrs.
  apply Hrs, elem_of_dom in Hr. set_solver.
Qed.

Lemma dom_loop_state p layout out rs vs todo (t : gmap string bool) fs :
  has_nodes rs t → has_nodes vs t → todo ⊆ rs →
  dom (loop_state p layout out rs vs todo t fs).1 = dom t.
Proof.
  revert t fs. induction todo as [|r todo IH]; intros t fs Hrs Hvs Hsub;
    [done|].
  simpl. rewrite IH.
  - apply dom_show_only_tree; [done | done | apply Hsub; by left].
  - by apply has_nodes_show_only_tree.
  - by apply has_nodes_show_only_tree.
  - intros x Hx. apply Hsub. by right.
Qed.

(** X9: a run neither adds nor removes a node of the layer tree, leaves the
    flag of every node that is not the node of a project layer as it was,
    and changes no flag at all when the project has no raster layer (hidden
    vector layers then stay hidden). *)
Theorem tree_nodes_preserved p ln out t0 fs0 :
  has_nodes (values (mapLayers p)) t0 →
  creatable out fs0 →
  ∃ w,
    export_layout p ln out (initial t0 fs0) = Ok tt w ∧
    dom (tree w) = dom t0 ∧
    (∀ i, i ∉ layer_id <$> values (mapLayers p) → tree w !! i = t0 !! i) ∧
    (raster_layers p = [] → tree w = t0).
Proof.
  intros Hn Hc.
  destruct (makedirs_fs_ok out fs0 Hc) as (fs1 & Hmk & _).
  rewrite (export_layout_ok p ln out t0 fs0 fs1) by done. cbv zeta.
  eexists. split; [done|]. cbn [tree]. split; [|split].
  - apply dom_loop_state; [by apply has_nodes_filter.. | done].
  - intros i Hi. apply loop_state_tree_other; [done | |].
    + intros (l & -> & Hl)%list_elem_of_fmap. apply Hi.
      apply list_elem_of_fmap_2. by apply elem_of_raster_layers in Hl as [? _].
    + intros (l & -> & Hl)%list_elem_of_fmap. apply Hi.
      apply list_elem_of_fmap_2. by apply elem_of_vector_layers in Hl as [? _].
  - by intros ->.
Qed.

Lemma demo_group_has_nodes :
  has_nodes (values (mapLayers demo_project)) demo_tree_with_group.
Proof. repeat constructor; by eexists. Qed.

Lemma tree_nodes_preserved_witness :
  ∃ w,
    main demo_project (initial demo_tree_with_group ∅) = Ok tt w ∧
    dom (tree w) = dom demo_tree_with_group ∧
    tree w !! "group1" = Some false.
Proof.
  destruct (tree_nodes_preserved demo_project "Layout_Name"
              "desired_output_directory" demo_tree_with_group ∅
              demo_group_has_nodes empty_disk_creatable)
    as (w & Hrun & Hdom & Hother & _).
  exists w. split; [exact Hrun|]. split; [exact Hdom|].
  rewrite Hother; [reflexivity|]. by apply (bool_decide_unpack _).
Defined.

(** ** Runs that raise *)

Lemma has_nodes_dom ls (t t' : gmap string bool) :
  dom t = dom t' → has_nodes ls t → has_nodes ls t'.
Proof.
  intros Hdom Hn. eapply Forall_impl; [exact Hn|]. intros l Hl. simpl in *.
  apply elem_of_dom. rewrite <- Hdom. by apply elem_of_dom.
Qed.

Lemma has_nodes_all p t :
  has_nodes (raster_layers p) t → has_nodes (vector_layers p) t →
  has_nodes (values (mapLayers p)) t.
Proof.
  unfold has_nodes. rewrite !Forall_forall. intros Hr Hv l Hl.
  destruct (layer_partition p l Hl); auto.
Qed.

(** A visibility loop over layers one of which has no node raises at the
    first such layer; until then it has only changed flags. *)
Lemma for_each_set_raise b ls w :
  ¬ has_nodes ls (tree w) →
  ∃ w' es,
    for_each (λ l, setItemVisibilityChecked (layer_id l) b) ls w
      = Raise AttributeError w' ∧
    files w' = files w ∧
    trace w' = trace w ++ es ∧
    Forall (λ e, is_toggle e = true) es.
Proof.
  revert w. induction ls as [|l ls IH]; intros w Hn.
  - destruct Hn. constructor.
  - cbn [for_each]. unfold bind, setItemVisibilityChecked at 1.
    destruct (tree w !! layer_id l) as [v|] eqn:Hl.
    + destruct (IH {| tree := <[layer_id l := b]> (tree w);
                      files := files w;
                      trace := trace w ++ [ESetVisible (layer_id l) b] |})
        as (w' & es & Hrun & Hf & Ht & Hes).
      { cbn [tree]. intros Hn'. apply Hn. constructor; [by eexists|].
        apply (has_nodes_dom ls (<[layer_id l := b]> (tree w))); [|done].
        rewrite dom_insert_L. apply (elem_of_dom_2 (D := gset string)) in Hl.
        set_solver. }
      exists w', (ESetVisible (layer_id l) b :: es).
      rewrite Hrun. split; [done|]. split; [done|]. split.
      * rewrite Ht. cbn [trace]. by rewrite <- app_assoc.
      * by constructor.
    + exists w, []. split; [done|]. split; [done|].
      split; [by rewrite app_nil_r | constructor].
Qed.

Lemma show_only_raise rs vs r w :
  r ∈ rs →
  ¬ (has_nodes rs (tree w) ∧ has_nodes vs (tree w)) →
  ∃ w' es,
    show_only rs vs r w = Raise AttributeError w' ∧
    files w' = files w ∧
    trace w' = trace w ++ es ∧
    Forall (λ e, is_toggle e = true) es.
Proof.
  intros Hr Hn. unfold show_only.
  destruct (decide (Forall (λ l, is_Some (tree w !! layer_id l)) rs))
    as [Hrs|Hrs].
  - unfold bind at 1. rewrite for_each_set_ok by done.
    unfold bind at 1, setItemVisibilityChecked at 1. cbn [tree files trace].
    assert (is_Some (set_flags false rs (tree w) !! layer_id r)) as [v Hv].
    { apply has_nodes_set_flags with (b := false) (ls' := rs) in Hrs.
      unfold has_nodes in Hrs. rewrite Forall_forall in Hrs. by apply Hrs. }
    rewrite Hv. unfold bind at 1.
    destruct (for_each_set_raise true vs
                {| tree := <[layer_id r := true]>
                             (set_flags false rs (tree w));
                   files := files w;
                   trace := (trace w
                             ++ ((λ l, ESetVisible (layer_id l) false) <$> rs))
                            ++ [ESetVisible (layer_id r) true] |})
      as (w' & es & Hrun & Hf & Ht & Hes).
    { cbn [tree]. intros Hvs. apply Hn. split; [done|].
      apply (has_nodes_dom vs
               (<[layer_id r := true]> (set_flags false rs (tree w))));
        [|done].
      rewrite dom_insert_L, dom_set_flags by done.
      unfold has_nodes in Hrs. rewrite Forall_forall in Hrs.
      apply Hrs, elem_of_dom in Hr. set_solver. }
    rewrite Hrun.
    exists w', (((λ l, ESetVisible (layer_id l) false) <$> rs)
                ++ [ESetVisible (layer_id r) true] ++ es).
    split; [done|]. split; [done|]. split.
    + rewrite Ht. cbn [trace]. by rewrite <- !app_assoc.
    + rewrite !Forall_app, Forall_fmap. split; [by apply Forall_true|].
      split; [by repeat constructor | done].
  - destruct (for_each_set_raise false rs w Hrs)
      as (w' & es & Hrun & Hf & Ht & Hes).
    unfold bind at 1. rewrite Hrun. by exists w', es.
Qed.

Lemma exports_toggle_calls es :
  Forall (λ e, is_toggle e = true) es → exports es = [].
Proof.
  induction 1 as [|e es He _ IH]; [done|].
  destruct e; first [done | exact IH].
Qed.

Lemma stdout_toggle_calls es :
  Forall (λ e, is_toggle e = true) es → stdout es = [].
Proof.
  induction 1 as [|e es He _ IH]; [done|].
  destruct e; first [done | exact IH].
Qed.

Lemma bind_raise {A B} (m : M A) (f : A → M B) w e w' :
  m w = Raise e w' → bind m f w = Raise e w'.
Proof. intros H. unfold bind. by rewrite H. Qed.

(** The directory cannot be created: the run stops there. *)
Lemma export_layout_makedirs_raise p ln out t0 fs0 e :
  makedirs_fs out true fs0 = inl e →
  export_layout p ln out (initial t0 fs0) =
    Raise e {| tree := t0; files := fs0; trace := [EMakedirs out true] |}.
Proof.
  intros Hmk. unfold export_layout, bind at 1, makedirs.
  cbn [initial tree files trace]. by rewrite Hmk.
Qed.

(** A layer without a node, and at least one raster layer: the first
    iteration raises before its export. *)
Lemma export_layout_node_raise p ln out t0 fs0 fs1 :
  makedirs_fs out true fs0 = inr fs1 →
  raster_layers p ≠ [] →
  ¬ has_nodes (values (mapLayers p)) t0 →
  ∃ w es,
    export_layout p ln out (initial t0 fs0) = Raise AttributeError w ∧
    files w = fs1 ∧
    trace w = [EMakedirs out true] ++ es ∧
    Forall (λ e, is_toggle e = true) es.
Proof.
  intros Hmk Hrs Hn.
  destruct (raster_layers p) as [|r rs'] eqn:Ers; [done|].
  destruct (show_only_raise (r :: rs') (vector_layers p) r
              {| tree := t0; files := fs1; trace := [EMakedirs out true] |})
    as (w' & es & Hrun & Hf & Ht & Hes).
  { by left. }
  { cbn [tree]. intros [Hr Hv]. apply Hn. apply has_nodes_all; [|done].
    by rewrite Ers. }
  exists w', es. split; [|done].
  unfold export_layout. rewrite Ers. unfold bind at 1.
  rewrite (makedirs_ok out fs1) by done. cbn [initial tree files trace].
  apply bind_raise. cbn [for_each]. apply bind_raise.
  unfold iteration. by apply bind_raise.
Qed.

(** X12: when a regular file sits at the path of the output directory, the
    run raises [FileExistsError] at once ([exist_ok] only accepts a
    directory): no flag of the layer tree has changed, the disk is
    untouched, nothing is printed. *)
Theorem file_at_output_path p ln out t0 fs0 :
  is_file fs0 out = true →
  export_layout p ln out (initial t0 fs0) =
    Raise FileExistsError
      {| tree := t0; files := fs0; trace := [EMakedirs out true] |}.
Proof.
  intros Hf. apply export_layout_makedirs_raise.
  unfold makedirs_fs, is_file in *.
  by destruct (fs0 !! out) as [[|img]|].
Qed.

Lemma file_at_output_path_witness :
  main demo_project (initial demo_tree disk_with_file) =
    Raise FileExistsError
      {| tree := demo_tree; files := disk_with_file;
         trace := [EMakedirs "desired_output_directory" true] |}.
Proof.
  apply (file_at_output_path demo_project "Layout_Name"
           "desired_output_directory" demo_tree disk_with_file).
  reflexivity.
Defined.

(** ** Calling [configure_logger] again and again *)

(** X13: each call of [configure_logger] takes the next handler id and
    leaves the console handler under it as the only handler: after [n + 1]
    calls on a logger whose counter was [c], the one handler has id [c + n]
    and the counter is [c + n + 1], so no id handed out earlier names a
    handler any more. *)
Theorem configure_logger_repeated n lg :
  handlers (Nat.iter (S n) configure_logger lg)
    = {[ handlers_count lg + n := console_handler ]} ∧
  handlers_count (Nat.iter (S n) configure_logger lg)
    = handlers_count lg + S n ∧
  (∀ i, i < handlers_count lg + n →
        handlers (Nat.iter (S n) configure_logger lg) !! i = None).
Proof.
  assert (handlers (Nat.iter (S n) configure_logger lg)
            = {[ handlers_count lg + n := console_handler ]} ∧
          handlers_count (Nat.iter (S n) configure_logger lg)
            = handlers_count lg + S n) as [Hh Hc].
  { induction n as [|n [IHh IHc]].
    - simpl. unfold configure_logger, logger_add, logger_remove. simpl.
      rewrite insert_empty. split; f_equal; lia.
    - change (Nat.iter (S (S n)) configure_logger lg)
        with (configure_logger (Nat.iter (S n) configure_logger lg)).
      unfold configure_logger at 1 3, logger_add, logger_remove.
      cbn [snd handlers handlers_count]. rewrite IHc, insert_empty.
      split; [f_equal|]; lia. }
  split; [done|]. split; [done|].
  intros i Hi. rewrite Hh. apply lookup_singleton_ne. lia.
Qed.

(** ** Plain names and folders *)





Lemma dir_prefixes_length pre s q :
  q ∈ dir_prefixes pre s →
  String.length q ≤ String.length pre + String.length s.
Proof.
  revert pre. induction s as [|c s IH]; intros pre Hq.
  - by apply elem_of_nil in Hq.
  - cbn [dir_prefixes] in Hq. apply elem_of_app in Hq as [Hq|Hq].
    + destruct (bool_decide (c = sep) && negb (bool_decide (pre = ""))
                && negb (endswith_sep pre)).
      * apply list_elem_of_singleton in Hq as ->. lia.
      * by apply elem_of_nil in Hq.
    + apply IH in Hq. rewrite string_app_length in Hq. simpl in *. lia.
Qed.

Lemma out_path_longer out r :
  startswith_sep (layer_name r) = false →
  String.length out < String.length (out_path out r).
Proof.
  intros Hn. unfold out_path, path_join. rewrite startswith_sep_png, Hn.
  destruct (bool_decide (out = "") || endswith_sep out);
    rewrite !string_app_length; simpl; lia.
Qed.

(** An export for a name that does not start with the separator goes
    below the folder: its path is neither the folder nor one of its
    directory prefixes. *)
Lemma out_path_not_directory out r :
  startswith_sep (layer_name r) = false →
  out_path out r ∉ ancestors out ++ [out].
Proof.
  intros Hn Hin. pose proof (out_path_longer out r Hn) as Hlen.
  apply elem_of_app in Hin as [Hin|Hin%list_elem_of_singleton].
  - apply dir_prefixes_length in Hin. simpl in Hin. lia.
  - rewrite Hin in Hlen. lia.
Qed.

Lemma directories_survive_exports p layout out todo fs q :
  Forall (λ r, startswith_sep (layer_name r) = false) todo →
  q ∈ ancestors out ++ [out] →
  apply_writes (export_writes p layout out todo) fs !! q = fs !! q.
Proof.
  intros Hnames Hq. apply apply_writes_lookup_other.
  rewrite export_writes_paths. intros (r & -> & Hr)%list_elem_of_fmap.
  rewrite Forall_forall in Hnames.
  by apply (out_path_not_directory out r (Hnames r Hr)).
Qed.

(** ** The output directory *)

(** C6: the first call of a run is the creation of the output directory,
    with [exist_ok], so it comes before every export.  A directory that is
    there already is accepted and the run goes through; one that is absent
    is created together with its missing directory prefixes.  The directory
    is there when each export is called and when the run ends.  (The folder
    is written in normal form, and no layer name starts with the separator,
    so that every export goes below the folder.) *)
Theorem output_directory_created p ln out t0 fs0 :
  has_nodes (values (mapLayers p)) t0 →
  creatable out fs0 →
  plain_path out = true →
  Forall (λ r, startswith_sep (layer_name r) = false) (raster_layers p) →
  let rs := raster_layers p in
  let vs := vector_layers p in
  let layout := layoutByName p ln in
  ∃ w es,
    export_layout p ln out (initial t0 fs0) = Ok tt w ∧
    trace w = EMakedirs out true :: es ∧
    is_dir (files w) out = true ∧
    (is_dir fs0 out = false →
       Forall (λ q, is_dir (files w) q = true) (ancestors out ++ [out])) ∧
    (∀ rs1 r rs2, rs = rs1 ++ r :: rs2 →
       ∃ w1,
         (makedirs out true >>
          for_each (iteration p layout out rs vs) rs1 >>
          show_only rs vs r) (initial t0 fs0) = Ok tt w1 ∧
         export_layout p ln out (initial t0 fs0) =
           (export_step p layout out r >>
            for_each (iteration p layout out rs vs) rs2 >>
            print summary_line) w1 ∧
         is_dir (files w1) out = true).
Proof.
  intros Hn Hc _ Hnames rs vs layout.
  destruct (makedirs_fs_ok out fs0 Hc) as (fs1 & Hmk & Hsame & Hnew).
  assert (out ∈ ancestors out ++ [out]) as Hout.
  { apply elem_of_app. right. by apply list_elem_of_singleton. }
  pose proof (export_layout_ok p ln out t0 fs0 fs1 Hn Hmk) as Hrun.
  cbv zeta in Hrun.
  eexists _, _. split; [exact Hrun|]. cbn [trace files].
  split; [done|]. rewrite loop_state_files_writes.
  split; [|split].
  - apply is_dir_Some. rewrite directories_survive_exports by done.
    by apply is_dir_Some, (makedirs_fs_is_dir out fs0).
  - intros Habs. apply Forall_forall. intros q Hq. apply is_dir_Some.
    rewrite directories_survive_exports by done.
    by rewrite (Hnew Habs), decide_True.
  - intros rs1 r rs2 Hrs.
    pose proof (before_export_ok p ln out t0 fs0 fs1 rs1 r rs2 Hn Hmk Hrs)
      as Hpre. cbv zeta in Hpre.
    eexists. split; [exact Hpre|].
    split; [by apply (export_layout_split p ln out rs1 r rs2)|].
    cbn [files].
    rewrite loop_state_files_writes. apply is_dir_Some.
    rewrite directories_survive_exports; [| |done].
    + by apply is_dir_Some, (makedirs_fs_is_dir out fs0).
    + subst rs. rewrite Hrs in Hnames. by apply Forall_app in Hnames as [? _].
Qed.

Lemma output_directory_created_witness :
  ∃ w,
    export_layout demo_project "Layout_Name" "exports/png"
      (initial demo_tree ∅) = Ok tt w ∧
    files w !! "exports" = Some Dir ∧
    files w !! "exports/png" = Some Dir.
Proof.
  destruct (output_directory_created demo_project "Layout_Name"
              "exports/png" demo_tree ∅ demo_has_nodes)
    as (w & es & Hrun & _ & _ & Hdirs & _).
  - right. by repeat constructor.
  - reflexivity.
  - by repeat constructor.
  - exists w. split; [exact Hrun|].
    specialize (Hdirs eq_refl). rewrite Forall_forall in Hdirs. split.
    + apply is_dir_Some, Hdirs. by apply (bool_decide_unpack _).
    + apply is_dir_Some, Hdirs. by apply (bool_decide_unpack _).
Defined.

(** ** Images left by a run *)






(** ** A layer without a node *)

(** X11: when the project has a raster layer and one of its layers has no
    node in the layer tree, the run stops in the first iteration with the
    [AttributeError] of calling [setItemVisibilityChecked] on the [None]
    that [findLayer] returned: after the directory creation it has only
    changed visibility flags, so no export call was made and nothing was
    printed. *)
Theorem missing_node_stops_first_iteration p ln out t0 fs0 :
  creatable out fs0 →
  raster_layers p ≠ [] →
  ¬ has_nodes (values (mapLayers p)) t0 →
  ∃ w es,
    export_layout p ln out (initial t0 fs0) = Raise AttributeError w ∧
    trace w = EMakedirs out true :: es ∧
    Forall (λ e, is_toggle e = true) es ∧
    exports (trace w) = [] ∧
    stdout (trace w) = [].
Proof.
  intros Hc Hrs Hn.
  destruct (makedirs_fs_ok out fs0 Hc) as (fs1 & Hmk & _).
  destruct (export_layout_node_raise p ln out t0 fs0 fs1 Hmk Hrs Hn)
    as (w & es & Hrun & _ & Ht & Hes).
  exists w, es. split; [done|]. split; [done|]. split; [done|].
  rewrite Ht, exports_app, stdout_app.
  by rewrite (exports_toggle_calls es), (stdout_toggle_calls es).
Qed.

Lemma missing_node_stops_first_iteration_witness :
  ∃ w,
    main demo_project (initial tree_without_roads ∅)
      = Raise AttributeError w ∧
    exports (trace w) = [] ∧ stdout (trace w) = [].
Proof.
  destruct (missing_node_stops_first_iteration demo_project "Layout_Name"
              "desired_output_directory" tree_without_roads ∅
              empty_disk_creatable)
    as (w & es & Hrun & _ & _ & Hex & Hout).
  - done.
  - by apply (bool_decide_unpack _).
  - exists w. split; [exact Hrun|]. split; [exact Hex | exact Hout].
Defined.

(** ** Export calls *)

(** X14: a run makes exactly one export call per raster layer, in the
    iteration order of the raster layers, each with the path line 53 builds
    for that layer; for a layer whose name does not start with the separator
    (and a folder that is not empty and does not end with one) that path is
    [<output_dir>/<name>.png]. *)
Theorem export_calls_per_raster_layer p ln out t0 fs0 :
  has_nodes (values (mapLayers p)) t0 →
  creatable out fs0 →
  ∃ w,
    export_layout p ln out (initial t0 fs0) = Ok tt w ∧
    exports (trace w) = out_path out <$> raster_layers p ∧
    length (exports (trace w)) = length (raster_layers p) ∧
    (∀ r, startswith_sep (layer_name r) = false →
          out ≠ "" → endswith_sep out = false →
          out_path out r = spec_out_path out r).
Proof.
  intros Hn Hc.
  destruct (makedirs_fs_ok out fs0 Hc) as (fs1 & Hmk & _).
  rewrite (export_layout_ok p ln out t0 fs0 fs1) by done. cbv zeta.
  eexists. split; [done|]. cbn [trace].
  assert (exports
            ([EMakedirs out true]
             ++ flat_map (iteration_events out (raster_layers p)
                            (vector_layers p)) (raster_layers p)
             ++ [EPrint summary_line])
          = out_path out <$> raster_layers p) as ->.
  { rewrite !exports_app, exports_loop. simpl. by rewrite app_nil_r. }
  split; [done|]. split; [by rewrite length_fmap|].
  intros r. apply out_path_spec.
Qed.

Lemma export_calls_per_raster_layer_witness :
  ∃ w,
    main demo_project (initial demo_tree ∅) = Ok tt w ∧
    exports (trace w) =
      ["desired_output_directory/dem.png";
       "desired_output_directory/ortho.png"].
Proof.
  destruct (export_calls_per_raster_layer demo_project "Layout_Name"
              "desired_output_directory" demo_tree ∅
              demo_has_nodes empty_disk_creatable)
    as (w & Hrun & Hex & _).
  exists w. split; [exact Hrun | exact Hex].
Defined.
